(** * Robot-execution-failure block parser

    A shallow embedding of the only hand-written logic of the teaching
    notebooks: the cell of [ML_16_collaborative_filtering_recommender.ipynb]
    (section "Example 2") that turns the lines of [lp1.data] into the inputs
    [X] and the true values [y]:

<<
    X = [] # inputs
    y = [] # true values
    classes = {'normal':0, 'collision':1, 'obstruction':2, 'fr_collision':3}
    for i in range(len(lines) - 1):
        line = lines[i].strip()
        if line in classes.keys():
            features = [int(x) for x in lines[i+1].strip().split('\t')]
            X.append(features)
            y.append(classes[line])
>>

    Python strings are modelled as [string] whose characters are the code
    points below 256; the built-ins [str.strip], [str.split] and [int] are
    modelled on that range, as Python 3.8 (the notebook's kernel) has
    them.  The notebook's global names [X], [y] and [classes] and the
    objects they point to are modelled as a store, and the cell as a
    computation in a state-and-exception monad over it.  The list [lines]
    is the cell's input; the loop's own variables [i], [line] and
    [features] are values of the computation, their bindings are not part
    of the store. *)

From Stdlib Require Import ZArith Lia Ascii.
From stdpp Require Import gmap strings list fin_maps.

Local Open Scope Z_scope.

(** ** Python string built-ins *)

Module PyStr.

(** A character's code point. *)
Definition ord (c : ascii) : Z := Z.of_N (N_of_ascii c).

Definition between (lo hi n : Z) : bool := (lo <=? n) && (n <=? hi).

(** Characters removed by [str.strip()] without argument: the white space
    of [str.isspace] on code points below 256, which is U+0009 to U+000D,
    U+001C to U+001F, the blank, U+0085 and U+00A0. *)
Definition isspace (c : ascii) : bool :=
  let n := ord c in
  between 9 13 n || between 28 31 n || (n =? 32) || (n =? 133) || (n =? 160).

(** White space that [int] skips around a literal: the C-locale white
    space, and the non-ASCII spaces that [int] first turns into blanks. *)
Definition int_isspace (c : ascii) : bool :=
  let n := ord c in
  between 9 13 n || (n =? 32) || (n =? 133) || (n =? 160).

(** The value of a decimal digit, ['0'] to ['9']. *)
Definition digit_value (c : ascii) : option Z :=
  let n := ord c in
  if between 48 57 n then Some (n - 48) else None.

Definition is_empty (s : string) : bool :=
  match s with EmptyString => true | String _ _ => false end.

Fixpoint lstrip (s : string) : string :=
  match s with
  | EmptyString => EmptyString
  | String c r => if isspace c then lstrip r else s
  end.

Fixpoint rstrip (s : string) : string :=
  match s with
  | EmptyString => EmptyString
  | String c r =>
      let r' := rstrip r in
      if isspace c && is_empty r' then EmptyString else String c r'
  end.

(** [s.strip()] *)
Definition strip (s : string) : string := rstrip (lstrip s).

(** [s.split(sep)] for a one-character separator: every occurrence of
    [sep] separates two fields, so the result is never empty and
    [''.split(sep)] is [['']]. *)
Fixpoint split (sep : ascii) (s : string) : list string :=
  match s with
  | EmptyString => [EmptyString]
  | String c r =>
      if Ascii.eqb c sep then EmptyString :: split sep r
      else match split sep r with
           | t :: ts => String c t :: ts
           | [] => [String c EmptyString]
           end
  end.

(** States of the scan of an integer literal after its sign. *)
Inductive lit_state :=
  | Start          (* no digit read yet *)
  | AfterDigit     (* last character was a digit *)
  | AfterUnderscore(* last character was a single underscore *)
  | Trailing.      (* in the white space that follows the digits *)

(** The digits of a base-10 literal, single underscores between digits
    allowed, followed by white space only.  [None] is an invalid literal. *)
Fixpoint int_digits (st : lit_state) (acc : Z) (s : string) : option Z :=
  match s with
  | EmptyString =>
      match st with
      | AfterDigit | Trailing => Some acc
      | Start | AfterUnderscore => None
      end
  | String c r =>
      match st with
      | Trailing => if int_isspace c then int_digits Trailing acc r else None
      | _ =>
          match digit_value c with
          | Some d => int_digits AfterDigit (10 * acc + d) r
          | None =>
              match st with
              | AfterDigit =>
                  if Ascii.eqb c "_" then int_digits AfterUnderscore acc r
                  else if int_isspace c then int_digits Trailing acc r
                  else None
              | _ => None
              end
          end
      end
  end.

Fixpoint int_lstrip (s : string) : string :=
  match s with
  | EmptyString => EmptyString
  | String c r => if int_isspace c then int_lstrip r else s
  end.

(** The value of [int(s)], or [None] where Python raises [ValueError]. *)
Definition int_value (s : string) : option Z :=
  match int_lstrip s with
  | EmptyString => None
  | String c r =>
      if Ascii.eqb c "+" then int_digits Start 0 r
      else if Ascii.eqb c "-" then Z.opp <$> int_digits Start 0 r
      else int_digits Start 0 (String c r)
  end.

(** The characters an integer literal is made of. *)
Definition literal_char (c : ascii) : bool :=
  match digit_value c with
  | Some _ => true
  | None =>
      Ascii.eqb c "_" || int_isspace c || Ascii.eqb c "+" || Ascii.eqb c "-"
  end.

Fixpoint chars (s : string) : list ascii :=
  match s with
  | EmptyString => []
  | String c r => c :: chars r
  end.

End PyStr.

(** ** The notebook's store *)

(** Items of the two lists the cell fills: an [int], or a list of [int]s
    (a row of [X]; the list [features] is referenced from [X] only and is
    never changed after it is appended). *)
Inductive val :=
  | VInt (n : Z)
  | VInts (ns : list Z).

(** Heap objects: a Python [list] or a [dict] from [str] to [int]. *)
Inductive obj :=
  | OList (items : list val)
  | ODict (d : gmap string Z).

(** The interpreter state: the objects allocated so far (an object's
    address is its index) and the notebook's global names. *)
Record notebook := Notebook {
  heap : list obj;
  globals : gmap string nat
}.

Inductive exn :=
  | ValueError (literal : string)   (* invalid literal for int() with base 10 *)
  | KeyError (key : string)
  | IndexError
  | NameError (name : string)
  | AttributeError
  | SystemError.

Inductive result (A : Type) :=
  | Ok (a : A)
  | Raise (e : exn).
Arguments Ok {A} a.
Arguments Raise {A} e.

(** Computations that read and change the notebook and may raise. The
    notebook survives an exception: what a cell did before it raised stays
    done. *)
Definition py (A : Type) : Type := notebook -> result A * notebook.

Definition ret {A} (a : A) : py A := fun nb => (Ok a, nb).

Definition raise {A} (e : exn) : py A := fun nb => (Raise e, nb).

Definition bind {A B} (m : py A) (k : A -> py B) : py B :=
  fun nb =>
    match m nb with
    | (Ok a, nb') => k a nb'
    | (Raise e, nb') => (Raise e, nb')
    end.

Declare Scope py_scope.
Delimit Scope py_scope with py.
Notation "x <~ m ;; k" := (bind m (fun x => k))
  (at level 100, m at next level, right associativity) : py_scope.
Notation "m ;;; k" := (bind m (fun _ => k))
  (at level 100, right associativity) : py_scope.
Local Open Scope py_scope.

(** Allocation of a new object; its address is returned. *)
Definition new (o : obj) : py nat :=
  fun nb => (Ok (length (heap nb)),
             {| heap := heap nb ++ [o]; globals := globals nb |}).

(** [x = <object at l>] *)
Definition assign (x : string) (l : nat) : py unit :=
  fun nb => (Ok tt, {| heap := heap nb; globals := <[x := l]> (globals nb) |}).

(** Evaluation of the global name [x] to the address it is bound to. *)
Definition name (x : string) : py nat :=
  fun nb =>
    match globals nb !! x with
    | Some l => (Ok l, nb)
    | None => (Raise (NameError x), nb)
    end.

Definition load (l : nat) : py obj :=
  fun nb =>
    match heap nb !! l with
    | Some o => (Ok o, nb)
    | None => (Raise SystemError, nb)
    end.

Definition store (l : nat) (o : obj) : py unit :=
  fun nb => (Ok tt, {| heap := <[l := o]> (heap nb); globals := globals nb |}).

(** [x.append(v)]: the list object that [x] names is changed in place. *)
Definition append (x : string) (v : val) : py unit :=
  l <~ name x ;;
  o <~ load l ;;
  match o with
  | OList items => store l (OList (items ++ [v]))
  | ODict _ => raise AttributeError
  end.

(** The dictionary that the global name [x] is bound to. *)
Definition the_dict (x : string) : py (gmap string Z) :=
  l <~ name x ;;
  o <~ load l ;;
  match o with
  | ODict d => ret d
  | OList _ => raise AttributeError
  end.

(** [d[k]] *)
Definition getitem_dict (d : gmap string Z) (k : string) : py Z :=
  match d !! k with
  | Some v => ret v
  | None => raise (KeyError k)
  end.

(** [seq[i]] on a Python sequence: a negative index counts from the end. *)
Definition getitem {A} (xs : list A) (i : Z) : py A :=
  let n := Z.of_nat (length xs) in
  let j := if i <? 0 then i + n else i in
  if (0 <=? j) && (j <? n) then
    match xs !! Z.to_nat j with
    | Some x => ret x
    | None => raise IndexError
    end
  else raise IndexError.

(** [range(n)] *)
Definition range (n : Z) : list Z := Z.of_nat <$> seq 0 (Z.to_nat n).

(** [for x in xs: body] *)
Fixpoint for_each {A} (xs : list A) (body : A -> py unit) : py unit :=
  match xs with
  | [] => ret tt
  | x :: xs' => body x ;;; for_each xs' body
  end.

(** [int(x)] *)
Definition int (x : string) : py Z :=
  match PyStr.int_value x with
  | Some n => ret n
  | None => raise (ValueError x)
  end.

(** [[f(x) for x in xs]] *)
Fixpoint comprehension {A B} (f : A -> py B) (xs : list A) : py (list B) :=
  match xs with
  | [] => ret []
  | x :: xs' => y <~ f x ;; ys <~ comprehension f xs' ;; ret (y :: ys)
  end.

(** ** The cell *)

Definition tab : ascii := "009"%char.

(** [{'normal':0, 'collision':1, 'obstruction':2, 'fr_collision':3}] *)
Definition classes_literal : gmap string Z :=
  <["fr_collision" := 3]> (<["obstruction" := 2]>
    (<["collision" := 1]> (<["normal" := 0]> ∅))).

(** One iteration of the loop, for the index [i]. *)
Definition body (lines : list string) (i : Z) : py unit :=
  l <~ getitem lines i ;;
  let line := PyStr.strip l in
  classes <~ the_dict "classes" ;;
  if decide (line ∈ dom classes) then
    nxt <~ getitem lines (i + 1) ;;
    features <~ comprehension int (PyStr.split tab (PyStr.strip nxt)) ;;
    append "X" (VInts features) ;;;
    c <~ getitem_dict classes line ;;
    append "y" (VInt c)
  else ret tt.

Definition loop (lines : list string) : py unit :=
  for_each (range (Z.of_nat (length lines) - 1)) (body lines).

(** The three assignments that open the cell. *)
Definition setup : py unit :=
  lX <~ new (OList []) ;; assign "X" lX ;;;
  ly <~ new (OList []) ;; assign "y" ly ;;;
  lc <~ new (ODict classes_literal) ;; assign "classes" lc.

(** The whole cell, run on the list [lines] read from the file. *)
Definition cell (lines : list string) : py unit :=
  setup ;;; loop lines.

(** The cell stopped after at most [k] iterations of its loop. *)
Definition cell_upto (k : nat) (lines : list string) : py unit :=
  setup ;;;
  for_each (take k (range (Z.of_nat (length lines) - 1))) (body lines).

(** ** Reading the results *)

Definition list_named (x : string) (nb : notebook) : option (list val) :=
  match globals nb !! x with
  | Some l => match heap nb !! l with
              | Some (OList items) => Some items
              | _ => None
              end
  | None => None
  end.

Definition dict_named (x : string) (nb : notebook) : option (gmap string Z) :=
  match globals nb !! x with
  | Some l => match heap nb !! l with
              | Some (ODict d) => Some d
              | _ => None
              end
  | None => None
  end.

(** A notebook in which nothing has been run. *)
Definition fresh : notebook := {| heap := []; globals := ∅ |}.

(** A line of fields joined by tabs. *)
Definition tsv (fields : list string) : string :=
  match fields with
  | [] => EmptyString
  | f :: fs => fold_left (fun s g => s +:+ String tab g) fs f
  end.

Definition example_lines : list string :=
  ["normal"; tsv ["-1"; "-1"; "63"; "-3"; "-1"; "0"];
   "collision"; tsv ["1"; "2"; "3"; "4"; "5"; "6"]].

(** ** A pure account of the scan *)

(** A Record: a numeric field vector and a label code. *)
Definition record : Type := list Z * Z.

Definition tokens (d : string) : list string :=
  PyStr.split tab (PyStr.strip d).

(** The comprehension over the tokens of a line, without the store. *)
Fixpoint ints (ts : list string) : result (list Z) :=
  match ts with
  | [] => Ok []
  | t :: ts' =>
      match PyStr.int_value t with
      | None => Raise (ValueError t)
      | Some n =>
          match ints ts' with
          | Ok ns => Ok (n :: ns)
          | Raise e => Raise e
          end
      end
  end.

Definition features (d : string) : result (list Z) := ints (tokens d).

(** The code of a label line, [None] for any other line. *)
Definition code (l : string) : option Z := classes_literal !! PyStr.strip l.

Definition is_label (l : string) : bool :=
  match code l with Some _ => true | None => false end.

Definition outcome (e : option exn) : result unit :=
  match e with
  | None => Ok tt
  | Some e => Raise e
  end.

(** The records emitted by the first [m] iterations over [ls], and the
    exception that stopped them, if any. *)
Fixpoint scan_upto (m : nat) (ls : list string) : list record * option exn :=
  match m, ls with
  | S m', l :: ((d :: _) as rest) =>
      match code l with
      | Some c =>
          match features d with
          | Ok fs => let '(rs, e) := scan_upto m' rest in ((fs, c) :: rs, e)
          | Raise e => ([], Some e)
          end
      | None => scan_upto m' rest
      end
  | _, _ => ([], None)
  end.

Definition scan (ls : list string) : list record * option exn :=
  scan_upto (length ls - 1) ls.

(** The notebook [nb] after the cell's three assignments and after the
    records [rs] have been appended. *)
Definition filled (nb : notebook) (rs : list record) : notebook :=
  let n := length (heap nb) in
  {| heap := heap nb ++ [OList (VInts <$> rs.*1); OList (VInt <$> rs.*2);
                         ODict classes_literal];
     globals := <["classes" := (n + 2)%nat]>
                  (<["y" := (n + 1)%nat]> (<["X" := n]> (globals nb))) |}.

(** The notebook holds the Dataset [rs]: [X] names the list of its field
    vectors and [y] the list of its codes. *)
Definition holds_dataset (nb : notebook) (rs : list record) : Prop :=
  list_named "X" nb = Some (VInts <$> rs.*1) /\
  list_named "y" nb = Some (VInt <$> rs.*2).

(** ** The specification's vocabulary *)

Definition valid_token (t : string) : bool :=
  match PyStr.int_value t with Some _ => true | None => false end.

(** A syntactically valid data line: each of its tab-separated tokens is an
    integer literal. *)
Definition valid_data_line (d : string) : bool := forallb valid_token (tokens d).

(** The numeric field vector of a data line, when it has one. *)
Definition field_vector (d : string) : option (list Z) :=
  mapM PyStr.int_value (tokens d).

(** The Dataset in the specification's words: every label line whose next
    line parses gives the pair of that line's field vector and the label's
    code, in scan order; other lines give nothing. *)
Fixpoint spec_dataset (ls : list string) : list record :=
  match ls with
  | l :: ((d :: _) as rest) =>
      match code l, field_vector d with
      | Some c, Some fs => (fs, c) :: spec_dataset rest
      | _, _ => spec_dataset rest
      end
  | _ => []
  end.

(** Line [i] is a label line and line [i + 1] a valid data line. *)
Definition pair_at (ls : list string) (i : nat) : bool :=
  match ls !! i, ls !! S i with
  | Some l, Some d => is_label l && valid_data_line d
  | _, _ => false
  end.

(** The number of label lines immediately followed by a valid data line. *)
Definition labelled_pairs (ls : list string) : nat :=
  length (List.filter (pair_at ls) (seq 0 (length ls))).

(** Well-formed input: every label line that has a next line is followed by
    a valid data line. *)
Fixpoint well_formed (ls : list string) : bool :=
  match ls with
  | l :: ((d :: _) as rest) =>
      (negb (is_label l) || valid_data_line d) && well_formed rest
  | _ => true
  end.

(** The line that comes after the lines [ls] follows a label line. *)
Definition after_label (ls : list string) : bool :=
  match last ls with
  | Some p => is_label p
  | None => false
  end.



(** The token has a decimal point, as a floating-point numeral has. *)
Definition has_point (tok : string) : bool :=
  existsb (Ascii.eqb ".") (PyStr.chars tok).

(** The codes of the label lines that have a next line, in scan order. *)
Definition label_codes (ls : list string) : list Z := omap code (removelast ls).


(** The two-entry dictionary of the specification's example. *)
Definition two_labels : gmap string Z :=
  <["collision" := 1]> (<["normal" := 0]> ∅).

(** ** Sample inputs *)

Definition spaced_lines : list string :=
  ["normal"; "0 0 0"; "collision"; "1 1 1"; "normal"; "2 2 2"].

Definition tabbed_lines : list string :=
  ["normal"; tsv ["0"; "0"; "0"]; "collision"; tsv ["1"; "1"; "1"];
   "normal"; tsv ["2"; "2"; "2"]].

Definition collision_first : list string :=
  ["collision"; tsv ["1"; "1"; "1"]; "normal"; tsv ["2"; "2"; "2"]].

Definition label_after_label : list string :=
  ["normal"; "collision"; tsv ["1"; "2"; "3"; "4"; "5"; "6"]].

Definition five_fields : list string :=
  ["normal"; tsv ["1"; "2"; "3"; "4"; "5"]].

Definition float_fields : list string :=
  ["normal"; tsv ["1.5"; "2.5"; "3.5"; "4.5"; "5.5"; "6.5"]].


Definition orphan_data : list string :=
  [tsv ["7"; "8"]; "normal"; tsv ["1"; "2"]; tsv ["3"; "4"]; "not a number"].

(** The first lines of [lp1.data] as [readlines()] returns them. *)
Definition file_head : list string :=
  ["normal" +:+ String "010" EmptyString;
   String tab (tsv ["-1"; "-1"; "63"; "-3"; "-1"; "0"]) +:+ String "010" EmptyString;
   String tab (tsv ["0"; "0"; "62"; "-3"; "-1"; "0"]) +:+ String "010" EmptyString;
   String tab (tsv ["-1"; "-1"; "61"; "-3"; "0"; "0"]) +:+ String "010" EmptyString;
   String tab (tsv ["-1"; "-1"; "63"; "-2"; "-1"; "0"]) +:+ String "010" EmptyString].

(** ** The combined-torque cell

    The cell of the same notebook that adds a feature to every row of [X]
    (section "Feature engineering"):

<<
    X_new = []
    for x in X:
        torque = x[3] + x[4] + x[5]
        X_new.append(x + [torque])
    print(X_new[0]) # Look at the first input
>>

    The value that [print] shows is the result of the computation. *)

(** [x[0]] for the global name [x]: the first item of a list; a [dict]
    with [str] keys has no key [0]. *)
Definition first_of (x : string) : py val :=
  l <~ name x ;;
  o <~ load l ;;
  match o with
  | OList items => getitem items 0
  | ODict _ => raise (KeyError "0")
  end.

(** One iteration: [x + [torque]] is a new list, [x] is not changed. *)
Definition torque_body (x : list Z) : py unit :=
  x3 <~ getitem x 3 ;;
  x4 <~ getitem x 4 ;;
  x5 <~ getitem x 5 ;;
  let torque := x3 + x4 + x5 in
  append "X_new" (VInts (x ++ [torque])).

(** The loop over the rows of [X] and the [print] after it. *)
Definition torque_rows (rows : list (list Z)) : py val :=
  for_each rows torque_body ;;;
  first_of "X_new".

(** The rows of a list of lists of [int]s. *)
Definition rows_of (items : list val) : option (list (list Z)) :=
  mapM (fun v => match v with VInts ns => Some ns | VInt _ => None end) items.

(** The whole cell.  It is modelled where [X] is unbound or names a list
    whose items are lists of [int]s, as the parsing cell leaves it; [None]
    is any other notebook. *)
Definition torque_cell (nb : notebook) : option (result val * notebook) :=
  match (l <~ new (OList []) ;; assign "X_new" l ;;;
         lX <~ name "X" ;; load lX) nb with
  | (Raise e, nb') => Some (Raise e, nb')
  | (Ok (OList items), nb') =>
      (fun rows => torque_rows rows nb') <$> rows_of items
  | (Ok (ODict _), _) => None
  end.

(** A row with its combined torque, when it has the three torque fields. *)
Definition add_torque (x : list Z) : option (list Z) :=
  match x !! 3%nat, x !! 4%nat, x !! 5%nat with
  | Some x3, Some x4, Some x5 => Some (x ++ [x3 + x4 + x5])
  | _, _, _ => None
  end.

(** The rows appended by the loop, and the exception that stopped it. *)
Fixpoint torque_scan (rows : list (list Z)) : list (list Z) * option exn :=
  match rows with
  | [] => ([], None)
  | x :: rest =>
      match add_torque x with
      | Some x' => let '(done, e) := torque_scan rest in (x' :: done, e)
      | None => ([], Some IndexError)
      end
  end.

(** The notebook [nb] after [X_new = []] and after [rows] were appended. *)
Definition torqued (nb : notebook) (rows : list (list Z)) : notebook :=
  {| heap := heap nb ++ [OList (VInts <$> rows)];
     globals := <["X_new" := length (heap nb)]> (globals nb) |}.

(** The row has the six readings. *)
Definition wide (x : list Z) : bool := (6 <=? length x)%nat.

(** The sum of the three torque readings of a row. *)
Definition torque_of (x : list Z) : Z := nth 3 x 0 + nth 4 x 0 + nth 5 x 0.

Definition with_torque (x : list Z) : list Z := x ++ [torque_of x].

(** ** White space around lines *)

Definition all_space (w : string) : bool :=
  forallb PyStr.isspace (PyStr.chars w).

Definition all_int_space (w : string) : bool :=
  forallb PyStr.int_isspace (PyStr.chars w).

(** [sep.join(ts)] *)
Fixpoint join (sep : ascii) (ts : list string) : string :=
  match ts with
  | [] => EmptyString
  | t :: ts' =>
      match ts' with
      | [] => t
      | _ :: _ => t +:+ String sep (join sep ts')
      end
  end.

(** The character [sep] does not occur in [t]. *)
Definition free_of (sep : ascii) (t : string) : bool :=
  negb (existsb (Ascii.eqb sep) (PyStr.chars t)).

(** The number of occurrences of [sep] in [s]. *)
Definition occurrences (sep : ascii) (s : string) : nat :=
  length (List.filter (Ascii.eqb sep) (PyStr.chars s)).

Definition newline : string := String "010" EmptyString.

Definition crlf : string := String "013" (String "010" EmptyString).

(** ** Blocks of the file

    "The file contains a class on one line followed by 15 lines": a block
    is a label line, the first line of readings after it, and the lines
    that follow up to the next label line. *)
Definition block : Type := string * string * list string.

Definition block_lines (b : block) : list string :=
  let '(l, d, more) := b in l :: d :: more.

Definition blocks_lines (bs : list block) : list string :=
  concat (block_lines <$> bs).

(** The block starts with a label line and a valid data line, and no other
    line of it is a label line. *)
Definition block_ok (b : block) : bool :=
  let '(l, d, more) := b in
  is_label l && valid_data_line d && forallb (fun m => negb (is_label m)) more.

(** The Record of the block [b] is [r]. *)
Definition block_record (b : block) (r : record) : Prop :=
  let '(l, d, more) := b in field_vector d = Some r.1 /\ code l = Some r.2.

Definition two_blocks : list block :=
  [("normal" +:+ newline,
    String tab (tsv ["-1"; "-1"; "63"; "-3"; "-1"; "0"]) +:+ newline,
    [String tab (tsv ["0"; "0"; "62"; "-3"; "-1"; "0"]) +:+ newline;
     String tab (tsv ["-1"; "-1"; "61"; "-3"; "0"; "0"]) +:+ newline;
     newline]);
   ("collision" +:+ newline,
    String tab (tsv ["-1"; "3"; "57"; "-5"; "-3"; "0"]) +:+ newline,
    [String tab (tsv ["0"; "2"; "58"; "not read"]) +:+ newline])].

(** The lines of [file_head] without the line ends and leading tabs. *)
Definition file_head_bare : list string :=
  ["normal"; tsv ["-1"; "-1"; "63"; "-3"; "-1"; "0"];
   tsv ["0"; "0"; "62"; "-3"; "-1"; "0"];
   tsv ["-1"; "-1"; "61"; "-3"; "0"; "0"];
   tsv ["-1"; "-1"; "63"; "-2"; "-1"; "0"]].

Definition short_row : list string :=
  ["normal"; tsv ["1"; "2"; "3"; "4"; "5"; "6"];
   "collision"; tsv ["1"; "2"; "3"; "4"; "5"]].

Definition blank_after_label : list string :=
  ["normal"; tsv ["1"; "2"]; "collision"; " " +:+ newline; "normal"; "x"].

(** ** Numerals and class names, read without the built-ins *)





(** A notebook in which [X] already names a list. *)
Definition earlier_X : notebook :=
  {| heap := [OList [VInt 7; VInt 8]]; globals := <["X" := 0%nat]> ∅ |}.

(** ** The built-ins on sample strings *)

Example strip_file_line :
  PyStr.strip (String tab (tsv ["-1"; "-1"; "63"]) +:+ String "010" EmptyString)
  = tsv ["-1"; "-1"; "63"].
Proof. reflexivity. Qed.

Example strip_keeps_inner_blanks : PyStr.strip "  fr collision " = "fr collision".
Proof. reflexivity. Qed.

Example split_empty : PyStr.split tab EmptyString = [EmptyString].
Proof. reflexivity. Qed.

Example split_adjacent_tabs :
  PyStr.split tab (tsv ["a"; EmptyString; "b"]) = ["a"; EmptyString; "b"].
Proof. reflexivity. Qed.

Example int_accepts :
  PyStr.int_value <$> [" 1 "; "1_0"; "+5"; "-0"; "0012"; "-12"; "1_2_3"]
  = Some <$> [1; 10; 5; 0; 12; -12; 123].
Proof. reflexivity. Qed.

Example int_rejects :
  PyStr.int_value <$>
    [EmptyString; "+"; "_1"; "1_"; "1__0"; "- 1"; "--1"; "1 2"; "1.5"; "1e5";
     "0x10"; "normal"]
  = [None; None; None; None; None; None; None; None; None; None; None; None].
Proof. reflexivity. Qed.

(** [str.strip] removes U+001C, [int] does not skip it. *)
Example separator_not_skipped_by_int :
  PyStr.strip (String "028" "7") = "7" /\
  PyStr.int_value (String "028" "7") = None.
Proof. split; reflexivity. Qed.

(** ** The store-level run and the pure scan agree *)

Section Store.

Context (nb : notebook).

Lemma comprehension_ints ts (σ : notebook) :
  comprehension int ts σ = (ints ts, σ).
Proof.
  induction ts as [|t ts IH]; simpl; [reflexivity|].
  unfold bind. unfold int at 1.
  destruct (PyStr.int_value t); simpl; [|reflexivity].
  rewrite IH. destruct (ints ts); reflexivity.
Qed.

Lemma getitem_nat {A} (xs : list A) (i : nat) (x : A) (σ : notebook) :
  xs !! i = Some x -> getitem xs (Z.of_nat i) σ = (Ok x, σ).
Proof.
  intros Hx. pose proof (lookup_lt_Some _ _ _ Hx) as Hlt.
  unfold getitem.
  destruct (Z.ltb_spec (Z.of_nat i) 0) as [?|_]; [lia|].
  destruct (Z.leb_spec 0 (Z.of_nat i)) as [_|?]; [|lia].
  destruct (Z.ltb_spec (Z.of_nat i) (Z.of_nat (length xs))) as [_|?]; [|lia].
  simpl. rewrite Nat2Z.id, Hx. reflexivity.
Qed.

Lemma heap_at (h t : list obj) (k : nat) :
  (h ++ t) !! (length h + k)%nat = t !! k.
Proof. induction h; simpl; auto. Qed.

Lemma heap_set (h t : list obj) (k : nat) (o : obj) :
  <[(length h + k)%nat := o]> (h ++ t) = h ++ <[k := o]> t.
Proof. induction h; simpl; [reflexivity|]. f_equal. assumption. Qed.

Lemma heap_at0 (h t : list obj) : (h ++ t) !! length h = t !! 0%nat.
Proof. rewrite <- (heap_at h t 0). f_equal. lia. Qed.

Lemma heap_set0 (h t : list obj) (o : obj) :
  <[length h := o]> (h ++ t) = h ++ <[0%nat := o]> t.
Proof. rewrite <- (heap_set h t 0). f_equal. lia. Qed.

Lemma setup_filled : setup nb = (Ok tt, filled nb []).
Proof.
  unfold setup, bind, new, assign, filled; simpl.
  rewrite !length_app; simpl. rewrite <- !app_assoc; simpl.
  replace (length (heap nb) + 1 + 1)%nat with (length (heap nb) + 2)%nat by lia.
  reflexivity.
Qed.

Lemma the_dict_filled rs :
  the_dict "classes" (filled nb rs) = (Ok classes_literal, filled nb rs).
Proof.
  unfold the_dict, bind, name, load; simpl.
  rewrite lookup_insert_eq; simpl. rewrite (heap_at _ _ 2). reflexivity.
Qed.

Lemma append_X_filled rs fs c :
  append "X" (VInts fs) (filled nb rs)
  = (Ok tt, {| heap := heap nb ++ [OList (VInts <$> (rs ++ [(fs, c)]).*1);
                                   OList (VInt <$> rs.*2);
                                   ODict classes_literal];
               globals := globals (filled nb rs) |}).
Proof.
  unfold append, bind, name, load, store; simpl.
  rewrite lookup_insert_ne by discriminate.
  rewrite lookup_insert_ne by discriminate.
  rewrite lookup_insert_eq; simpl.
  rewrite heap_at0; simpl. rewrite heap_set0; simpl.
  rewrite !fmap_app. reflexivity.
Qed.

Lemma append_y_filled rs fs c :
  append "y" (VInt c)
    {| heap := heap nb ++ [OList (VInts <$> (rs ++ [(fs, c)]).*1);
                           OList (VInt <$> rs.*2);
                           ODict classes_literal];
       globals := globals (filled nb rs) |}
  = (Ok tt, filled nb (rs ++ [(fs, c)])).
Proof.
  unfold append, bind, name, load, store; simpl.
  rewrite lookup_insert_ne by discriminate.
  rewrite lookup_insert_eq; simpl.
  rewrite (heap_at _ _ 1); simpl. rewrite (heap_set _ _ 1); simpl.
  unfold filled. rewrite !fmap_app. reflexivity.
Qed.

(** One iteration, on a notebook the cell has set up. *)
Lemma body_filled lines (i : nat) l d rs :
  lines !! i = Some l ->
  lines !! S i = Some d ->
  body lines (Z.of_nat i) (filled nb rs)
  = match code l with
    | Some c =>
        match features d with
        | Ok fs => (Ok tt, filled nb (rs ++ [(fs, c)]))
        | Raise e => (Raise e, filled nb rs)
        end
    | None => (Ok tt, filled nb rs)
    end.
Proof.
  intros Hl Hd. unfold body, bind at 1.
  rewrite (getitem_nat _ _ _ _ Hl).
  unfold bind at 1. rewrite the_dict_filled.
  unfold code. destruct (classes_literal !! PyStr.strip l) as [c|] eqn:Hc.
  - destruct (decide _) as [_|Hn].
    2:{ exfalso. apply Hn, elem_of_dom. eauto. }
    unfold bind at 1.
    replace (Z.of_nat i + 1) with (Z.of_nat (S i)) by lia.
    rewrite (getitem_nat _ _ _ _ Hd).
    unfold bind at 1. rewrite comprehension_ints.
    fold (tokens d). fold (features d).
    destruct (features d) as [fs|e]; [|reflexivity].
    unfold bind at 1. rewrite (append_X_filled rs fs c).
    unfold bind at 1, getitem_dict. rewrite Hc. unfold ret.
    apply append_y_filled.
  - destruct (decide _) as [Hin|_]; [|reflexivity].
    apply elem_of_dom in Hin. rewrite Hc in Hin. destruct Hin; discriminate.
Qed.

Lemma scan_upto_loop lines m : forall (k : nat) rs,
  (k + m < length lines)%nat ->
  for_each (Z.of_nat <$> seq k m) (body lines) (filled nb rs)
  = let '(rs', e) := scan_upto m (drop k lines) in
    (outcome e, filled nb (rs ++ rs')).
Proof.
  induction m as [|m IH]; intros k rs Hk.
  - simpl. rewrite app_nil_r. reflexivity.
  - destruct (lookup_lt_is_Some_2 lines k ltac:(lia)) as [l Hl].
    destruct (lookup_lt_is_Some_2 lines (S k) ltac:(lia)) as [d Hd].
    rewrite (drop_S _ _ _ Hl), (drop_S _ _ _ Hd).
    cbn [seq fmap list_fmap for_each scan_upto].
    unfold bind. rewrite (body_filled _ _ _ _ _ Hl Hd).
    destruct (code l) as [c|].
    + destruct (features d) as [fs|e].
      * rewrite IH by lia. rewrite (drop_S _ _ _ Hd).
        destruct (scan_upto m _) as [rs' e]. rewrite <- app_assoc. reflexivity.
      * rewrite app_nil_r. reflexivity.
    + rewrite IH by lia. rewrite (drop_S _ _ _ Hd). reflexivity.
Qed.

Lemma take_range (k : nat) (n : Z) :
  take k (range n) = Z.of_nat <$> seq 0 (k `min` Z.to_nat n).
Proof. unfold range. rewrite <- fmap_take, take_seq. reflexivity. Qed.

(** The cell stopped after [k] iterations. *)
Lemma cell_upto_scan k lines :
  cell_upto k lines nb
  = let '(rs, e) := scan_upto (k `min` (length lines - 1)) lines in
    (outcome e, filled nb rs).
Proof.
  unfold cell_upto, bind. rewrite setup_filled, take_range.
  replace (Z.to_nat (Z.of_nat (length lines) - 1)) with (length lines - 1)%nat by lia.
  destruct lines as [|l0 lines'].
  - rewrite Nat.min_0_r. reflexivity.
  - rewrite scan_upto_loop by (simpl; lia). reflexivity.
Qed.

(** The whole cell. *)
Lemma cell_scan lines :
  cell lines nb = let '(rs, e) := scan lines in (outcome e, filled nb rs).
Proof.
  pose proof (cell_upto_scan (length lines - 1) lines) as H.
  rewrite Nat.min_id in H. unfold scan. rewrite <- H.
  unfold cell, cell_upto, loop. rewrite take_range. unfold range.
  replace (Z.to_nat (Z.of_nat (length lines) - 1)) with (length lines - 1)%nat by lia.
  rewrite Nat.min_id. reflexivity.
Qed.

Lemma filled_holds rs : holds_dataset (filled nb rs) rs.
Proof.
  unfold holds_dataset, list_named; simpl.
  rewrite lookup_insert_ne by discriminate.
  rewrite lookup_insert_ne by discriminate.
  rewrite lookup_insert_eq.
  rewrite lookup_insert_ne by discriminate.
  rewrite lookup_insert_eq.
  rewrite heap_at0, (heap_at _ _ 1). simpl. auto.
Qed.

Lemma filled_classes rs :
  dict_named "classes" (filled nb rs) = Some classes_literal.
Proof.
  unfold dict_named; simpl. rewrite lookup_insert_eq.
  rewrite (heap_at _ _ 2). reflexivity.
Qed.

End Store.

(** ** Facts about the pure scan *)

Lemma scan_nil : scan [] = ([], None).
Proof. reflexivity. Qed.

Lemma scan_one l : scan [l] = ([], None).
Proof. reflexivity. Qed.

Lemma scan_cons2 l d rest :
  scan (l :: d :: rest)
  = match code l with
    | Some c =>
        match features d with
        | Ok fs => let '(rs, e) := scan (d :: rest) in ((fs, c) :: rs, e)
        | Raise e => ([], Some e)
        end
    | None => scan (d :: rest)
    end.
Proof.
  unfold scan. cbn [length]. rewrite !Nat.sub_succ, !Nat.sub_0_r. reflexivity.
Qed.

(** Induction over a list two lines at a time, as the scan reads it. *)
Lemma pairs_ind (P : list string -> Prop) :
  P [] -> (forall l, P [l]) ->
  (forall l d rest, P (d :: rest) -> P (l :: d :: rest)) ->
  forall ls, P ls.
Proof.
  intros Hnil Hone Hstep ls. induction ls as [|l [|d rest] IH]; auto.
Qed.

Lemma ints_mapM ts :
  match ints ts with
  | Ok ns => mapM PyStr.int_value ts = Some ns
  | Raise e =>
      mapM PyStr.int_value ts = None /\
      exists tok, e = ValueError tok /\ tok ∈ ts /\ PyStr.int_value tok = None
  end.
Proof.
  induction ts as [|t ts IH]; simpl; [reflexivity|].
  destruct (PyStr.int_value t) as [n|] eqn:Ht; simpl.
  - destruct (ints ts) as [ns|e].
    + rewrite IH. reflexivity.
    + destruct IH as [-> (tok & -> & Hin & Hbad)]. split; [reflexivity|].
      exists tok. split; [reflexivity|]. split; [right; exact Hin|exact Hbad].
  - split; [reflexivity|]. exists t. split; [reflexivity|].
    split; [left|exact Ht].
Qed.

Lemma features_Ok d fs : features d = Ok fs <-> field_vector d = Some fs.
Proof.
  unfold features, field_vector. pose proof (ints_mapM (tokens d)) as H.
  destruct (ints (tokens d)) as [ns|e].
  - rewrite H. split; congruence.
  - destruct H as [-> _]. split; discriminate.
Qed.

Lemma features_Raise d e :
  features d = Raise e ->
  field_vector d = None /\
  exists tok, e = ValueError tok /\ tok ∈ tokens d /\ PyStr.int_value tok = None.
Proof.
  unfold features, field_vector. pose proof (ints_mapM (tokens d)) as H.
  destruct (ints (tokens d)) as [ns|e']; [discriminate|].
  intros [= <-]. exact H.
Qed.

Lemma field_vector_values d fs :
  field_vector d = Some fs <->
  Forall2 (fun tok n => PyStr.int_value tok = Some n) (tokens d) fs.
Proof. unfold field_vector. apply mapM_Some. Qed.

Lemma valid_data_line_spec d :
  valid_data_line d = true <-> exists fs, field_vector d = Some fs.
Proof.
  unfold valid_data_line, field_vector.
  induction (tokens d) as [|t ts IH]; simpl.
  - split; eauto.
  - unfold valid_token at 1.
    destruct (PyStr.int_value t) as [n|]; simpl.
    + rewrite IH. split.
      * intros [fs ->]. eauto.
      * intros [fs H]. destruct (mapM PyStr.int_value ts); [eauto|discriminate].
    + split; [discriminate|]. intros [fs H]. discriminate.
Qed.

Lemma invalid_data_line d :
  valid_data_line d = false <-> field_vector d = None.
Proof.
  pose proof (valid_data_line_spec d) as H.
  destruct (valid_data_line d), (field_vector d) as [fs|];
    split; intros; try congruence.
  - destruct H as [H _]. destruct (H eq_refl); discriminate.
  - destruct H as [_ H]. exfalso.
    assert (false = true) by (apply H; eauto). discriminate.
Qed.

Lemma bad_token_invalid d tok :
  tok ∈ tokens d -> PyStr.int_value tok = None -> field_vector d = None.
Proof.
  intros Hin Hbad. destruct (field_vector d) as [fs|] eqn:Hfs; [|reflexivity].
  apply field_vector_values in Hfs.
  destruct (proj1 (list_elem_of_lookup _ _) Hin) as [i Hi].
  destruct (Forall2_lookup_l _ _ _ _ _ Hfs Hi) as (n & _ & Hn). congruence.
Qed.

Lemma is_label_code l : is_label l = true <-> exists c, code l = Some c.
Proof.
  unfold is_label. destruct (code l); split; eauto; try discriminate.
  intros [c H]; discriminate.
Qed.

(** The four keys and the four values of [classes]. *)
Lemma classes_entries k c :
  classes_literal !! k = Some c ->
  (k = "normal" /\ c = 0) \/ (k = "collision" /\ c = 1) \/
  (k = "obstruction" /\ c = 2) \/ (k = "fr_collision" /\ c = 3).
Proof.
  unfold classes_literal. intros H.
  repeat (apply lookup_insert_Some in H as [[<- <-]|[_ H]]; [tauto|]).
  rewrite lookup_empty in H. discriminate.
Qed.

(** A label line read as a data line is not a list of integers. *)
Lemma label_not_data t : is_label t = true -> exists e, features t = Raise e.
Proof.
  intros H. apply is_label_code in H as [c H].
  unfold features, tokens. unfold code in H.
  apply classes_entries in H as [[-> _]|[[-> _]|[[-> _]|[-> _]]]];
    vm_compute; eauto.
Qed.

Lemma well_formed_scan ls :
  well_formed ls = true -> scan ls = (spec_dataset ls, None).
Proof.
  induction ls as [| |l d rest IH] using pairs_ind; intros Hwf; try reflexivity.
  cbn [well_formed] in Hwf. apply andb_prop in Hwf as [Hld Hrest].
  rewrite scan_cons2. cbn [spec_dataset]. rewrite (IH Hrest).
  unfold is_label in Hld. destruct (code l) as [c|]; [|reflexivity].
  simpl in Hld. apply valid_data_line_spec in Hld as [fs Hfs].
  rewrite Hfs. apply features_Ok in Hfs. rewrite Hfs. reflexivity.
Qed.

Lemma well_formed_lookup ls :
  well_formed ls = true <->
  forall (i : nat) l d,
    ls !! i = Some l -> ls !! S i = Some d ->
    is_label l = true -> valid_data_line d = true.
Proof.
  induction ls as [|l0|l0 d0 rest IH] using pairs_ind.
  - split; [|reflexivity]. intros _ i l d H. discriminate.
  - split; [|reflexivity]. intros _ [|i] l d _ H; discriminate.
  - cbn [well_formed]. rewrite andb_true_iff, IH. split.
    + intros [H0 Hrest] [|i] l d Hl Hd Hlab.
      * injection Hl as <-. injection Hd as <-.
        rewrite Hlab in H0. exact H0.
      * exact (Hrest i l d Hl Hd Hlab).
    + intros H. split.
      * destruct (is_label l0) eqn:Hlab; [|reflexivity].
        exact (H 0%nat l0 d0 eq_refl eq_refl Hlab).
      * intros i l d Hl Hd. exact (H (S i) l d Hl Hd).
Qed.

Lemma filter_map_length {A B} (f : B -> bool) (g : A -> B) (xs : list A) :
  length (List.filter f (List.map g xs))
  = length (List.filter (fun x => f (g x)) xs).
Proof.
  induction xs as [|x xs IH]; simpl; [reflexivity|].
  destruct (f (g x)); simpl; congruence.
Qed.

Lemma labelled_pairs_cons l rest :
  labelled_pairs (l :: rest)
  = ((if pair_at (l :: rest) 0 then 1 else 0) + labelled_pairs rest)%nat.
Proof.
  unfold labelled_pairs. cbn [length seq List.filter].
  assert (length (List.filter (pair_at (l :: rest)) (seq 1 (length rest)))
          = length (List.filter (pair_at rest) (seq 0 (length rest)))) as H.
  { rewrite <- seq_shift, filter_map_length.
    rewrite (List.filter_ext _ (pair_at rest)) by reflexivity. reflexivity. }
  destruct (pair_at (l :: rest) 0); cbn [length]; rewrite H; reflexivity.
Qed.

Lemma spec_dataset_length ls : length (spec_dataset ls) = labelled_pairs ls.
Proof.
  induction ls as [| |l d rest IH] using pairs_ind; try reflexivity.
  rewrite labelled_pairs_cons, <- IH. cbn [spec_dataset].
  unfold pair_at, is_label. cbn [lookup list_lookup].
  pose proof (valid_data_line_spec d) as Hv.
  destruct (code l) as [c|]; [|reflexivity].
  destruct (field_vector d) as [fs|].
  - replace (valid_data_line d) with true by (symmetry; apply Hv; eauto).
    reflexivity.
  - destruct (valid_data_line d); [|reflexivity].
    destruct Hv as [Hv _]. destruct (Hv eq_refl); discriminate.
Qed.

Lemma label_codes_cons2 l d rest :
  label_codes (l :: d :: rest)
  = match code l with
    | Some c => c :: label_codes (d :: rest)
    | None => label_codes (d :: rest)
    end.
Proof. unfold label_codes. cbn [removelast omap list_omap]. reflexivity. Qed.

(** The codes of the emitted records are the codes of the label lines, in
    scan order, up to the line at which the scan stopped. *)
Lemma scan_codes ls :
  (scan ls).1.*2 `prefix_of` label_codes ls /\
  ((scan ls).2 = None -> (scan ls).1.*2 = label_codes ls).
Proof.
  induction ls as [| |l d rest [IHp IHe]] using pairs_ind.
  - split; [apply prefix_nil|reflexivity].
  - split; [apply prefix_nil|reflexivity].
  - rewrite scan_cons2, label_codes_cons2.
    destruct (code l) as [c|]; [|auto].
    destruct (features d) as [fs|e].
    + destruct (scan (d :: rest)) as [rs e]. simpl in *. split.
      * apply prefix_cons. exact IHp.
      * intros He. f_equal. exact (IHe He).
    + simpl. split; [apply prefix_nil|discriminate].
Qed.

(** A label line followed by a line that is not valid data stops the scan
    with [ValueError], before any record for that label. *)
Lemma scan_bad ls : forall (i : nat) l d,
  ls !! i = Some l -> ls !! S i = Some d ->
  is_label l = true -> valid_data_line d = false ->
  (exists lit, (scan ls).2 = Some (ValueError lit)) /\
  (scan ls).1 `prefix_of` spec_dataset (take (S i) ls).
Proof.
  induction ls as [|l0|l0 d0 rest IH] using pairs_ind; intros i l d Hl Hd Hlab Hbad.
  - discriminate.
  - destruct i; discriminate.
  - rewrite scan_cons2. destruct i as [|i].
    + injection Hl as <-. injection Hd as <-.
      apply is_label_code in Hlab as [c ->].
      apply invalid_data_line in Hbad.
      destruct (features d0) as [fs|e] eqn:Hf.
      * apply features_Ok in Hf. congruence.
      * apply features_Raise in Hf as (_ & tok & -> & _). simpl.
        split; [eauto|apply prefix_nil].
    + destruct (IH i l d Hl Hd Hlab Hbad) as [Hex Hpre].
      change (take (S (S i)) (l0 :: d0 :: rest))
        with (l0 :: d0 :: take i rest).
      change (take (S i) (d0 :: rest)) with (d0 :: take i rest) in Hpre.
      cbn [spec_dataset]. destruct (code l0) as [c|]; [|auto].
      destruct (features d0) as [fs|e] eqn:Hf.
      * apply features_Ok in Hf. rewrite Hf.
        destruct (scan (d0 :: rest)) as [rs e]. simpl in *.
        split; [exact Hex|apply prefix_cons; exact Hpre].
      * apply features_Raise in Hf as (_ & tok & -> & _). simpl.
        split; [eauto|apply prefix_nil].
Qed.

Lemma scan_skip_head d ls : is_label d = false -> scan (d :: ls) = scan ls.
Proof.
  intros Hd. destruct ls as [|x r]; [reflexivity|].
  rewrite scan_cons2. unfold is_label in Hd.
  destruct (code d); [discriminate|reflexivity].
Qed.

(** A line that is no label and does not follow a label line has no effect. *)
Lemma scan_skip l1 d l2 :
  is_label d = false ->
  after_label l1 = false ->
  scan (l1 ++ d :: l2) = scan (l1 ++ l2).
Proof.
  intros Hd. induction l1 as [|p|p q r IH] using pairs_ind; intros Hlast.
  - apply scan_skip_head, Hd.
  - change (is_label p = false) in Hlast. simpl.
    rewrite (scan_skip_head p) by exact Hlast.
    rewrite (scan_skip_head d) by exact Hd.
    rewrite (scan_skip_head p) by exact Hlast. reflexivity.
  - change ((p :: q :: r) ++ d :: l2) with (p :: q :: (r ++ d :: l2)).
    change ((p :: q :: r) ++ l2) with (p :: q :: (r ++ l2)).
    rewrite !scan_cons2.
    change (q :: (r ++ d :: l2)) with ((q :: r) ++ d :: l2).
    change (q :: (r ++ l2)) with ((q :: r) ++ l2).
    rewrite IH; [reflexivity|].
    unfold after_label in *. rewrite last_cons_cons in Hlast. exact Hlast.
Qed.

(** A last line after a line that is no label has no effect. *)
Lemma scan_trailing_any ls t :
  after_label ls = false ->
  scan (ls ++ [t]) = scan ls.
Proof.
  induction ls as [|p|p q r IH] using pairs_ind; intros Hlast.
  - reflexivity.
  - change (is_label p = false) in Hlast. simpl.
    rewrite (scan_skip_head p) by exact Hlast. reflexivity.
  - change ((p :: q :: r) ++ [t]) with (p :: q :: (r ++ [t])).
    rewrite !scan_cons2.
    change (q :: (r ++ [t])) with ((q :: r) ++ [t]).
    rewrite IH; [reflexivity|].
    unfold after_label in *. rewrite last_cons_cons in Hlast. exact Hlast.
Qed.

(** A last line that is a label adds no record. *)
Lemma scan_trailing_label ls t :
  is_label t = true -> (scan (ls ++ [t])).1 = (scan ls).1.
Proof.
  intros Ht. induction ls as [|p|p q r IH] using pairs_ind.
  - reflexivity.
  - simpl. rewrite scan_cons2.
    destruct (label_not_data t Ht) as [e ->].
    destruct (code p); reflexivity.
  - change ((p :: q :: r) ++ [t]) with (p :: q :: (r ++ [t])).
    rewrite !scan_cons2.
    change (q :: (r ++ [t])) with ((q :: r) ++ [t]).
    destruct (code p); [|exact IH].
    destruct (features q); [|reflexivity].
    destruct (scan ((q :: r) ++ [t])), (scan (q :: r)). simpl in *.
    congruence.
Qed.



(** A valid data line after a label line gives a record of the Dataset. *)
Lemma spec_dataset_pair ls : forall (i : nat) l d c fs,
  ls !! i = Some l -> ls !! S i = Some d ->
  code l = Some c -> field_vector d = Some fs ->
  (fs, c) ∈ spec_dataset ls.
Proof.
  induction ls as [|l0|l0 d0 rest IH] using pairs_ind; intros i l d c fs Hl Hd Hc Hfs.
  - discriminate.
  - destruct i; discriminate.
  - cbn [spec_dataset]. destruct i as [|i].
    + injection Hl as <-. injection Hd as <-. rewrite Hc, Hfs. left.
    + specialize (IH i l d c fs Hl Hd Hc Hfs).
      destruct (code l0); [|exact IH].
      destruct (field_vector d0); [right|]; exact IH.
Qed.

(** ** The scan, iteration by iteration *)

Lemma scan_upto_0 ls : scan_upto 0 ls = ([], None).
Proof. reflexivity. Qed.

Lemma scan_upto_short m ls : (length ls <= 1)%nat -> scan_upto m ls = ([], None).
Proof.
  destruct ls as [|l [|d rest]]; simpl; intros H; try lia; destruct m; reflexivity.
Qed.

Lemma scan_upto_S m l d rest :
  scan_upto (S m) (l :: d :: rest)
  = match code l with
    | Some c =>
        match features d with
        | Ok fs => let '(rs, e) := scan_upto m (d :: rest) in ((fs, c) :: rs, e)
        | Raise e => ([], Some e)
        end
    | None => scan_upto m (d :: rest)
    end.
Proof. reflexivity. Qed.

(** One more iteration appends one record, or none. *)
Lemma scan_upto_succ m : forall ls,
  (scan_upto (S m) ls).1 = (scan_upto m ls).1 \/
  exists r, (scan_upto (S m) ls).1 = (scan_upto m ls).1 ++ [r].
Proof.
  induction m as [|m IH]; intros [|l [|d rest]]; try (left; reflexivity).
  - rewrite scan_upto_S, !scan_upto_0.
    destruct (code l) as [c|]; [|left; reflexivity].
    destruct (features d) as [fs|e]; [right; exists (fs, c)|left]; reflexivity.
  - rewrite (scan_upto_S (S m)), (scan_upto_S m).
    destruct (code l) as [c|]; [|apply IH].
    destruct (features d) as [fs|e]; [|left; reflexivity].
    specialize (IH (d :: rest)).
    destruct (scan_upto (S m) (d :: rest)) as [rs1 e1].
    destruct (scan_upto m (d :: rest)) as [rs0 e0]. simpl in *.
    destruct IH as [->|[r ->]]; [left|right; exists r]; reflexivity.
Qed.

(** Every emitted code is a value of [classes]. *)
Lemma scan_upto_codes m : forall ls,
  Forall (fun r : record => exists key, classes_literal !! key = Some r.2)
         (scan_upto m ls).1.
Proof.
  induction m as [|m IH]; intros [|l [|d rest]]; try apply Forall_nil_2.
  rewrite scan_upto_S. destruct (code l) as [c|] eqn:Hc; [|apply IH].
  destruct (features d) as [fs|e]; [|apply Forall_nil_2].
  specialize (IH (d :: rest)).
  destruct (scan_upto m (d :: rest)) as [rs e]. simpl in *.
  apply Forall_cons_2; [|exact IH]. exists (PyStr.strip l). exact Hc.
Qed.

Lemma classes_values key c :
  classes_literal !! key = Some c -> c ∈ [0; 1; 2; 3].
Proof.
  intros H. apply classes_entries in H as [[_ ->]|[[_ ->]|[[_ ->]|[_ ->]]]];
    set_solver.
Qed.

(** ** Integer literals *)

Lemma int_digits_chars s : forall st acc v,
  PyStr.int_digits st acc s = Some v ->
  Forall (fun c => PyStr.literal_char c = true) (PyStr.chars s).
Proof.
  induction s as [|c r IH]; intros st acc v H; [apply Forall_nil_2|].
  simpl in H. cbn [PyStr.chars]. apply Forall_cons_2.
  - unfold PyStr.literal_char.
    destruct st, (PyStr.digit_value c), (Ascii.eqb c "_"), (PyStr.int_isspace c);
      try discriminate; reflexivity.
  - destruct st, (PyStr.digit_value c), (Ascii.eqb c "_"), (PyStr.int_isspace c);
      try discriminate; eauto.
Qed.

Lemma int_lstrip_chars s :
  Forall (fun c => PyStr.literal_char c = true) (PyStr.chars (PyStr.int_lstrip s)) ->
  Forall (fun c => PyStr.literal_char c = true) (PyStr.chars s).
Proof.
  induction s as [|c r IH]; simpl; [auto|].
  destruct (PyStr.int_isspace c) eqn:Hc; [|auto].
  intros H. apply Forall_cons_2; [|auto].
  unfold PyStr.literal_char. rewrite Hc.
  destruct (PyStr.digit_value c), (Ascii.eqb c "_"); reflexivity.
Qed.

(** A string that [int] accepts is made of digits, underscores, signs and
    white space only. *)
Lemma int_value_chars s v :
  PyStr.int_value s = Some v ->
  Forall (fun c => PyStr.literal_char c = true) (PyStr.chars s).
Proof.
  unfold PyStr.int_value. intros H. apply int_lstrip_chars.
  destruct (PyStr.int_lstrip s) as [|c r]; [discriminate|].
  destruct (Ascii.eqb c "+") eqn:Hplus.
  - simpl. apply Forall_cons_2.
    + unfold PyStr.literal_char. rewrite Hplus.
      destruct (PyStr.digit_value c); [reflexivity|].
      rewrite orb_true_r. reflexivity.
    + eapply int_digits_chars, H.
  - destruct (Ascii.eqb c "-") eqn:Hminus.
    + simpl. apply Forall_cons_2.
      * unfold PyStr.literal_char. rewrite Hminus.
        destruct (PyStr.digit_value c); [reflexivity|].
        rewrite orb_true_r. reflexivity.
      * destruct (PyStr.int_digits PyStr.Start 0 r) as [v'|] eqn:Hr; [|discriminate].
        eapply int_digits_chars, Hr.
    + eapply int_digits_chars, H.
Qed.

Lemma digit_value_ord c d :
  PyStr.digit_value c = Some d -> d = PyStr.ord c - 48 /\ 48 <= PyStr.ord c <= 57.
Proof.
  unfold PyStr.digit_value, PyStr.between.
  destruct (Z.leb_spec 48 (PyStr.ord c)), (Z.leb_spec (PyStr.ord c) 57);
    simpl; intros [= <-]; lia.
Qed.

Lemma digit_not_space c d :
  PyStr.digit_value c = Some d -> PyStr.int_isspace c = false.
Proof.
  intros H. apply digit_value_ord in H as [_ H].
  unfold PyStr.int_isspace, PyStr.between.
  replace (PyStr.ord c <=? 13) with false by (symmetry; apply Z.leb_gt; lia).
  replace (PyStr.ord c =? 32) with false by (symmetry; apply Z.eqb_neq; lia).
  replace (PyStr.ord c =? 133) with false by (symmetry; apply Z.eqb_neq; lia).
  replace (PyStr.ord c =? 160) with false by (symmetry; apply Z.eqb_neq; lia).
  rewrite andb_false_r. reflexivity.
Qed.



(** A token with a decimal point is no integer literal. *)
Lemma int_value_point tok :
  "."%char ∈ PyStr.chars tok -> PyStr.int_value tok = None.
Proof.
  intros Hin. destruct (PyStr.int_value tok) as [v|] eqn:Hv; [|reflexivity].
  apply int_value_chars in Hv. rewrite Forall_forall in Hv.
  specialize (Hv _ Hin). discriminate.
Qed.

(** ** The cell and the scan *)

Lemma cell_result lines nb rs e :
  scan lines = (rs, e) -> cell lines nb = (outcome e, filled nb rs).
Proof. intros H. rewrite cell_scan, H. reflexivity. Qed.

Lemma cell_fst lines nb : (cell lines nb).1 = outcome (scan lines).2.
Proof. rewrite cell_scan. destruct (scan lines); reflexivity. Qed.

Lemma cell_snd lines nb : (cell lines nb).2 = filled nb (scan lines).1.
Proof. rewrite cell_scan. destruct (scan lines); reflexivity. Qed.

Lemma cell_upto_snd k lines nb :
  (cell_upto k lines nb).2
  = filled nb (scan_upto (k `min` (length lines - 1)) lines).1.
Proof. rewrite cell_upto_scan. destruct (scan_upto _ lines); reflexivity. Qed.

Lemma outcome_ValueError e lit :
  e = Some (ValueError lit) -> outcome e = Raise (ValueError lit).
Proof. intros ->. reflexivity. Qed.

#[local] Instance VInts_inj : Inj (=) (=) VInts.
Proof. intros x y H. injection H. auto. Qed.

#[local] Instance VInt_inj : Inj (=) (=) VInt.
Proof. intros x y H. injection H. auto. Qed.

(** A notebook holds one Dataset at most. *)
Lemma holds_dataset_inj nb rs rs' :
  holds_dataset nb rs -> holds_dataset nb rs' -> rs = rs'.
Proof.
  intros [HX Hy] [HX' Hy']. rewrite HX in HX'. rewrite Hy in Hy'.
  injection HX' as HX'. injection Hy' as Hy'.
  apply (inj (fmap VInts)) in HX'. apply (inj (fmap VInt)) in Hy'.
  rewrite <- (zip_fst_snd rs), <- (zip_fst_snd rs'). congruence.
Qed.

Lemma filled_heap_old nb rs (a : nat) o :
  heap nb !! a = Some o -> heap (filled nb rs) !! a = Some o.
Proof. intros H. simpl. apply lookup_app_l_Some. exact H. Qed.

Lemma split_nonempty sep s : (1 <= length (PyStr.split sep s))%nat.
Proof.
  induction s as [|c r IH]; simpl; [lia|].
  destruct (Ascii.eqb c sep); simpl; [lia|].
  destruct (PyStr.split sep r); simpl; lia.
Qed.

Lemma has_point_chars tok : has_point tok = true -> "."%char ∈ PyStr.chars tok.
Proof.
  unfold has_point. intros H. apply existsb_exists in H as (c & Hin & Hc).
  apply Ascii.eqb_eq in Hc as <-. apply list_elem_of_In. exact Hin.
Qed.

(** The cell on a label line followed by a line that is not valid data. *)
Lemma cell_bad_line lines nb (i : nat) l d :
  lines !! i = Some l -> lines !! S i = Some d ->
  is_label l = true -> valid_data_line d = false ->
  exists lit rs,
    (cell lines nb).1 = Raise (ValueError lit) /\
    holds_dataset (cell lines nb).2 rs /\
    rs `prefix_of` spec_dataset (take (S i) lines).
Proof.
  intros Hl Hd Hlab Hbad.
  destruct (scan_bad lines i l d Hl Hd Hlab Hbad) as [[lit He] Hpre].
  exists lit, (scan lines).1. rewrite cell_fst, cell_snd.
  split; [apply outcome_ValueError, He|].
  split; [apply filled_holds|exact Hpre].
Qed.

(** The cell on well-formed input, and the record of one of its pairs. *)
Lemma cell_pair_record lines nb (i : nat) l d :
  well_formed lines = true ->
  lines !! i = Some l -> lines !! S i = Some d ->
  is_label l = true ->
  exists nb' fs c,
    cell lines nb = (Ok tt, nb') /\
    holds_dataset nb' (spec_dataset lines) /\
    (fs, c) ∈ spec_dataset lines /\
    field_vector d = Some fs /\ code l = Some c.
Proof.
  intros Hwf Hl Hd Hlab.
  pose proof (proj1 (well_formed_lookup lines) Hwf i l d Hl Hd Hlab) as Hv.
  apply valid_data_line_spec in Hv as [fs Hfs].
  apply is_label_code in Hlab as [c Hc].
  exists (filled nb (spec_dataset lines)), fs, c.
  split; [apply (cell_result _ _ _ None), well_formed_scan, Hwf|].
  split; [apply filled_holds|].
  split; [exact (spec_dataset_pair lines i l d c fs Hl Hd Hc Hfs)|].
  split; [exact Hfs|exact Hc].
Qed.

(** Evaluation of the cell on given lines. *)
Ltac run_cell :=
  first [ eapply (cell_result _ _ _ None); vm_compute; reflexivity
        | eapply (cell_result _ _ _ (Some _)); vm_compute; reflexivity ].

(** The first Record of [lp1.data], from the lines the notebook shows. *)
Example file_head_record nb :
  cell file_head nb = (Ok tt, filled nb [([-1; -1; 63; -3; -1; 0], 0)]).
Proof. run_cell. Qed.

(** A label line that ends the input, after another label line: the run
    raises where the run without it completes; [X] and [y] are empty in
    both. *)
Example label_then_last_label nb :
  cell ["normal"; "collision"] nb = (Raise (ValueError "collision"), filled nb []) /\
  cell ["normal"] nb = (Ok tt, filled nb []).
Proof. split; run_cell. Qed.

(** ** Properties of the block parser *)

(** C2 (as the code has it). Parsing the example lines yields exactly the
    Dataset [([-1,-1,63,-3,-1,0], 0), ([1,2,3,4,5,6], 1)]; the Label
    Dictionary is the fixed [classes] of four entries, in which normal is 0
    and collision is 1. *)
Theorem C2_example_dataset nb :
  exists nb',
    cell example_lines nb = (Ok tt, nb') /\
    holds_dataset nb' [([-1; -1; 63; -3; -1; 0], 0); ([1; 2; 3; 4; 5; 6], 1)] /\
    dict_named "classes" nb' = Some classes_literal /\
    classes_literal !! "normal" = Some 0 /\
    classes_literal !! "collision" = Some 1 /\
    classes_literal !! "obstruction" = Some 2 /\
    classes_literal !! "fr_collision" = Some 3 /\
    size classes_literal = 4%nat.
Proof.
  eexists. split; [run_cell|].
  split; [apply filled_holds|].
  split; [apply filled_classes|].
  repeat split; vm_compute; reflexivity.
Qed.

(** C2, the claim as stated fails: after the example is parsed the Label
    Dictionary is not {normal:0, collision:1}; it also maps obstruction. *)
Lemma C2_dictionary_has_four_labels :
  exists nb',
    cell example_lines fresh = (Ok tt, nb') /\
    dict_named "classes" nb' = Some classes_literal /\
    classes_literal !! "obstruction" = Some 2 /\
    two_labels !! "obstruction" = None /\
    classes_literal <> two_labels.
Proof.
  eexists. split; [run_cell|].
  split; [apply filled_classes|].
  split; [vm_compute; reflexivity|].
  split; [vm_compute; reflexivity|].
  intros H. apply (f_equal (fun m : gmap string Z => m !! "obstruction")) in H.
  vm_compute in H. discriminate.
Qed.

(** C3 (as the code has it). The code of a label is the one the fixed
    [classes] gives it, whatever the order in which labels occur: the
    emitted codes are the fixed codes of the label lines in scan order, up
    to the line where the scan stopped, and all of them when the cell
    completes.  The tab-separated example yields three Records with codes
    0, 1, 0; with collision first, collision still has code 1. *)
Theorem C3_codes_from_fixed_classes lines nb :
  exists rs,
    holds_dataset (cell lines nb).2 rs /\
    rs.*2 `prefix_of` label_codes lines /\
    ((cell lines nb).1 = Ok tt -> rs.*2 = label_codes lines) /\
    (exists nb', cell tabbed_lines nb = (Ok tt, nb') /\
       holds_dataset nb' [([0; 0; 0], 0); ([1; 1; 1], 1); ([2; 2; 2], 0)]) /\
    (exists nb', cell collision_first nb = (Ok tt, nb') /\
       holds_dataset nb' [([1; 1; 1], 1); ([2; 2; 2], 0)]).
Proof.
  exists (scan lines).1. rewrite cell_snd, cell_fst.
  destruct (scan_codes lines) as [Hpre Hall].
  split; [apply filled_holds|].
  split; [exact Hpre|].
  split.
  { intros He. apply Hall. destruct (scan lines).2; [discriminate|reflexivity]. }
  split; eexists; (split; [run_cell|]);
    apply filled_holds.
Qed.

Lemma C3_codes_from_fixed_classes_witness :
  exists rs,
    holds_dataset (cell file_head fresh).2 rs /\ rs.*2 = label_codes file_head.
Proof.
  destruct (C3_codes_from_fixed_classes file_head fresh)
    as (rs & Hrs & _ & Hall & _).
  exists rs. split; [exact Hrs|]. apply Hall. vm_compute. reflexivity.
Defined.

(** C3, the claim as stated fails: on the specification's example, whose
    data lines are separated by blanks, the cell raises [ValueError] at the
    first data line and no Record is emitted; and codes do not follow first
    occurrence: with collision the first label seen, its code is 1. *)
Lemma C3_spaced_example_raises :
  cell spaced_lines fresh = (Raise (ValueError "0 0 0"), filled fresh []) /\
  holds_dataset (filled fresh []) [] /\
  (exists nb', cell collision_first fresh = (Ok tt, nb') /\
     holds_dataset nb' [([1; 1; 1], 1); ([2; 2; 2], 0)]).
Proof.
  split; [run_cell|].
  split; [apply filled_holds|].
  eexists. split; [run_cell|].
  apply filled_holds.
Qed.

(** C4 (as the code has it). A label line followed by a line that does not
    parse as tab-separated integers, another label line for one, makes the
    cell raise [ValueError]: no Record is appended for that label, the
    Dataset keeps only Records of earlier lines.  A line that is no label
    and does not follow a label line is skipped: the run is the same as
    without it. *)
Theorem C4_unparseable_raises_orphan_skipped lines nb :
  (forall (i : nat) l d,
     lines !! i = Some l -> lines !! S i = Some d ->
     is_label l = true -> valid_data_line d = false ->
     exists lit rs,
       (cell lines nb).1 = Raise (ValueError lit) /\
       holds_dataset (cell lines nb).2 rs /\
       rs `prefix_of` spec_dataset (take (S i) lines)) /\
  (forall l1 d l2,
     lines = l1 ++ d :: l2 ->
     is_label d = false -> after_label l1 = false ->
     cell lines nb = cell (l1 ++ l2) nb).
Proof.
  split.
  - intros i l d. apply cell_bad_line.
  - intros l1 d l2 -> Hd Hl1. rewrite !cell_scan, scan_skip by assumption.
    reflexivity.
Qed.

Lemma C4_unparseable_raises_orphan_skipped_witness :
  (exists lit rs,
     (cell label_after_label fresh).1 = Raise (ValueError lit) /\
     holds_dataset (cell label_after_label fresh).2 rs /\
     rs `prefix_of` spec_dataset (take 1 label_after_label)) /\
  cell orphan_data fresh
  = cell ([tsv ["7"; "8"]; "normal"; tsv ["1"; "2"]] ++ ["not a number"]) fresh.
Proof.
  split.
  - apply (proj1 (C4_unparseable_raises_orphan_skipped label_after_label fresh)
             0%nat "normal" "collision"); vm_compute; reflexivity.
  - apply (proj2 (C4_unparseable_raises_orphan_skipped orphan_data fresh)
             [tsv ["7"; "8"]; "normal"; tsv ["1"; "2"]] (tsv ["3"; "4"])
             ["not a number"]); vm_compute; reflexivity.
Defined.

(** C4, the claim as stated fails: a label line directly followed by
    another label line is not skipped, the cell raises. *)
Lemma C4_label_after_label_raises :
  cell label_after_label fresh = (Raise (ValueError "collision"), filled fresh []).
Proof. run_cell. Qed.

(** C5 (as the code has it). No field count is checked: on well-formed
    input a data line after a label line is appended as a Record with
    exactly as many fields as it has tab-separated tokens, at least one,
    whatever that number is. *)
Theorem C5_any_field_count_accepted lines nb (i : nat) l d :
  well_formed lines = true ->
  lines !! i = Some l -> lines !! S i = Some d ->
  is_label l = true ->
  exists nb' fs c,
    cell lines nb = (Ok tt, nb') /\
    holds_dataset nb' (spec_dataset lines) /\
    (fs, c) ∈ spec_dataset lines /\
    field_vector d = Some fs /\ code l = Some c /\
    length fs = length (tokens d) /\ (1 <= length fs)%nat.
Proof.
  intros Hwf Hl Hd Hlab.
  destruct (cell_pair_record lines nb i l d Hwf Hl Hd Hlab)
    as (nb' & fs & c & Hrun & Hds & Hin & Hfs & Hc).
  exists nb', fs, c. do 5 (split; [assumption|]).
  apply field_vector_values, Forall2_length in Hfs.
  rewrite <- Hfs. split; [reflexivity|apply split_nonempty].
Qed.

Lemma C5_any_field_count_accepted_witness :
  exists nb' fs c,
    cell five_fields fresh = (Ok tt, nb') /\
    holds_dataset nb' (spec_dataset five_fields) /\
    (fs, c) ∈ spec_dataset five_fields /\
    field_vector (tsv ["1"; "2"; "3"; "4"; "5"]) = Some fs /\
    code "normal" = Some c /\
    length fs = length (tokens (tsv ["1"; "2"; "3"; "4"; "5"])) /\
    (1 <= length fs)%nat.
Proof.
  apply (C5_any_field_count_accepted five_fields fresh 0%nat);
    vm_compute; reflexivity.
Defined.

(** C5, the claim as stated fails: where six fields are expected, a data
    line of five fields after a label line is appended as a Record. *)
Lemma C5_five_fields_appended :
  exists nb',
    cell five_fields fresh = (Ok tt, nb') /\
    holds_dataset nb' [([1; 2; 3; 4; 5], 0)].
Proof.
  eexists. split; [run_cell|].
  apply filled_holds.
Qed.

(** C6 (as the code has it). Fields are read by [int]: a data line after a
    label line whose tokens are integer literals gives a Record of their
    values, and a token with a decimal point, as "1.5", is no integer
    literal: a data line after a label line that has one makes the cell
    raise [ValueError], and no Record is emitted for it. *)
Theorem C6_integers_accepted_floats_raise lines nb (i : nat) l d :
  lines !! i = Some l -> lines !! S i = Some d ->
  is_label l = true ->
  (valid_data_line d = true -> well_formed lines = true ->
   exists nb' fs c,
     cell lines nb = (Ok tt, nb') /\ holds_dataset nb' (spec_dataset lines) /\
     (fs, c) ∈ spec_dataset lines /\ code l = Some c /\
     Forall2 (fun tok n => PyStr.int_value tok = Some n) (tokens d) fs) /\
  (forall (j : nat) tok,
     tokens d !! j = Some tok -> has_point tok = true ->
     PyStr.int_value tok = None /\
     exists lit rs,
       (cell lines nb).1 = Raise (ValueError lit) /\
       holds_dataset (cell lines nb).2 rs /\
       rs `prefix_of` spec_dataset (take (S i) lines)).
Proof.
  intros Hl Hd Hlab. split.
  - intros _ Hwf.
    destruct (cell_pair_record lines nb i l d Hwf Hl Hd Hlab)
      as (nb' & fs & c & Hrun & Hds & Hin & Hfs & Hc).
    exists nb', fs, c. do 4 (split; [assumption|]).
    apply field_vector_values, Hfs.
  - intros j tok Htok Hpt.
    assert (PyStr.int_value tok = None) as Hnone
      by apply int_value_point, has_point_chars, Hpt.
    split; [exact Hnone|].
    apply (cell_bad_line lines nb i l d Hl Hd Hlab).
    apply invalid_data_line. apply (bad_token_invalid d tok); [|exact Hnone].
    apply list_elem_of_lookup. eauto.
Qed.

Lemma C6_integers_accepted_floats_raise_witness :
  PyStr.int_value "1.5" = None /\
  exists lit rs,
    (cell float_fields fresh).1 = Raise (ValueError lit) /\
    holds_dataset (cell float_fields fresh).2 rs /\
    rs `prefix_of` spec_dataset (take 1 float_fields).
Proof.
  assert (float_fields !! 0%nat = Some "normal") as H0
    by (vm_compute; reflexivity).
  assert (float_fields !! 1%nat
          = Some (tsv ["1.5"; "2.5"; "3.5"; "4.5"; "5.5"; "6.5"])) as H1
    by (vm_compute; reflexivity).
  assert (is_label "normal" = true) as Hlab by (vm_compute; reflexivity).
  apply (proj2 (C6_integers_accepted_floats_raise float_fields fresh 0%nat
                  _ _ H0 H1 Hlab) 0%nat "1.5"); vm_compute; reflexivity.
Defined.

(** C6, the claim as stated fails: a data line of floating-point numerals
    after a label line is not emitted as a Record, the cell raises. *)
Lemma C6_float_fields_raise :
  cell float_fields fresh = (Raise (ValueError "1.5"), filled fresh []) /\
  holds_dataset (filled fresh []) [].
Proof.
  split; [run_cell|apply filled_holds].
Qed.

(** C7 (as the code has it). Running the cell is deterministic and
    running it again gives the same results: the second run, started from
    the notebook the first run left, and a run started from any other
    notebook end the same way as the first, with the same Dataset and the
    same Label Dictionary.  Each run builds them from scratch in objects it
    allocates itself, and no object that was there before a run is changed
    by it.  The notebook's global state is changed all the same: a run
    binds the names [X], [y] and [classes] to its new objects, whatever
    they named before. *)
Theorem C7_rerun_same_result lines nb nb0 :
  let first := cell lines nb in
  let second := cell lines first.2 in
  let other := cell lines nb0 in
  second.1 = first.1 /\ other.1 = first.1 /\
  (exists rs, holds_dataset first.2 rs /\ holds_dataset second.2 rs /\
              holds_dataset other.2 rs) /\
  dict_named "classes" first.2 = Some classes_literal /\
  dict_named "classes" second.2 = Some classes_literal /\
  dict_named "classes" other.2 = Some classes_literal /\
  (forall (a : nat) o, heap nb !! a = Some o -> heap first.2 !! a = Some o) /\
  (forall (a : nat) o, heap first.2 !! a = Some o -> heap second.2 !! a = Some o) /\
  globals first.2 !! "X" = Some (length (heap nb)) /\
  globals first.2 !! "y" = Some (length (heap nb) + 1)%nat /\
  globals first.2 !! "classes" = Some (length (heap nb) + 2)%nat /\
  globals second.2 !! "X" = Some (length (heap nb) + 3)%nat /\
  globals second.2 !! "y" = Some (length (heap nb) + 4)%nat /\
  globals second.2 !! "classes" = Some (length (heap nb) + 5)%nat /\
  (forall (a : nat), (length (heap nb) <= a)%nat -> heap nb !! a = None) /\
  length (heap first.2) = (length (heap nb) + 3)%nat.
Proof.
  cbv zeta. rewrite !cell_fst, !cell_snd.
  split; [reflexivity|]. split; [reflexivity|].
  split. { exists (scan lines).1. repeat split; apply filled_holds. }
  do 3 (split; [apply filled_classes|]).
  do 2 (split; [intros a o; apply filled_heap_old|]).
  assert (length (heap (filled nb (scan lines).1)) = (length (heap nb) + 3)%nat)
    as Hlen by (simpl; rewrite length_app; reflexivity).
  repeat split.
  - simpl. rewrite !lookup_insert_ne by discriminate. apply lookup_insert_eq.
  - simpl. rewrite lookup_insert_ne by discriminate. apply lookup_insert_eq.
  - simpl. apply lookup_insert_eq.
  - unfold filled at 1. cbn [globals]. rewrite Hlen.
    rewrite !lookup_insert_ne by discriminate. apply lookup_insert_eq.
  - unfold filled at 1. cbn [globals]. rewrite Hlen.
    rewrite lookup_insert_ne by discriminate.
    rewrite lookup_insert_eq. f_equal. lia.
  - unfold filled at 1. cbn [globals]. rewrite Hlen.
    rewrite lookup_insert_eq. f_equal. lia.
  - intros a Ha. apply lookup_ge_None. exact Ha.
  - exact Hlen.
Qed.

(** C7, the claim as stated fails: a run modifies the state a previous
    run left.  After the second run the global [X] names another object
    than after the first, so the two notebooks differ; and a list that [X]
    named before the cell ran is no longer what [X] names. *)
Lemma C7_rerun_rebinds_globals :
  let first := cell example_lines fresh in
  let second := cell example_lines first.2 in
  globals first.2 !! "X" = Some 0%nat /\
  globals second.2 !! "X" = Some 3%nat /\
  globals first.2 <> globals second.2 /\
  list_named "X" earlier_X = Some [VInt 7; VInt 8] /\
  list_named "X" (cell example_lines earlier_X).2
  = Some [VInts [-1; -1; 63; -3; -1; 0]; VInts [1; 2; 3; 4; 5; 6]].
Proof.
  cbv zeta.
  assert (globals (cell example_lines fresh).2 !! "X" = Some 0%nat) as H1
    by (vm_compute; reflexivity).
  assert (globals (cell example_lines (cell example_lines fresh).2).2 !! "X"
          = Some 3%nat) as H2 by (vm_compute; reflexivity).
  split; [exact H1|]. split; [exact H2|].
  split; [intros H; rewrite H, H2 in H1; discriminate|].
  split; vm_compute; reflexivity.
Qed.

(** C8. A label line that is the last line of the input contributes no
    Record: the notebook after the run, and so the Dataset in it, is the
    same as without that line. *)
Theorem C8_trailing_label_adds_nothing ls t nb :
  is_label t = true ->
  (cell (ls ++ [t]) nb).2 = (cell ls nb).2 /\
  (exists rs, holds_dataset (cell ls nb).2 rs /\
              holds_dataset (cell (ls ++ [t]) nb).2 rs) /\
  (after_label ls = false -> cell (ls ++ [t]) nb = cell ls nb).
Proof.
  intros Ht. rewrite !cell_snd, (scan_trailing_label ls t Ht).
  split; [reflexivity|].
  split. { exists (scan ls).1. split; apply filled_holds. }
  intros Hls. rewrite !cell_scan, scan_trailing_any by exact Hls. reflexivity.
Qed.

Lemma C8_trailing_label_adds_nothing_witness :
  (cell (example_lines ++ ["obstruction"]) fresh).2 = (cell example_lines fresh).2 /\
  (exists rs, holds_dataset (cell example_lines fresh).2 rs /\
              holds_dataset (cell (example_lines ++ ["obstruction"]) fresh).2 rs) /\
  (after_label example_lines = false ->
   cell (example_lines ++ ["obstruction"]) fresh = cell example_lines fresh).
Proof.
  apply (C8_trailing_label_adds_nothing example_lines "obstruction" fresh).
  vm_compute. reflexivity.
Defined.



(** C10. At every step of the loop, and when the cell is done, [X] and [y]
    have the same length, the items of [y] are values of [classes], among
    0, 1, 2 and 3, and the next iteration appends one item to both lists or
    to neither. *)
Theorem C10_X_and_y_in_step lines nb (k : nat) :
  exists Xs ys,
    list_named "X" (cell_upto k lines nb).2 = Some Xs /\
    list_named "y" (cell_upto k lines nb).2 = Some ys /\
    length Xs = length ys /\
    Forall (fun v => exists c key,
              v = VInt c /\ classes_literal !! key = Some c /\ c ∈ [0; 1; 2; 3])
           ys /\
    ((list_named "X" (cell_upto (S k) lines nb).2 = Some Xs /\
      list_named "y" (cell_upto (S k) lines nb).2 = Some ys) \/
     (exists fs c,
        list_named "X" (cell_upto (S k) lines nb).2 = Some (Xs ++ [VInts fs]) /\
        list_named "y" (cell_upto (S k) lines nb).2 = Some (ys ++ [VInt c]))) /\
    cell_upto (length lines) lines nb = cell lines nb.
Proof.
  rewrite !cell_upto_snd.
  set (n := (length lines - 1)%nat).
  set (rs := (scan_upto (k `min` n) lines).1).
  exists (VInts <$> rs.*1), (VInt <$> rs.*2).
  split; [apply filled_holds|]. split; [apply filled_holds|].
  split; [rewrite !length_fmap; reflexivity|].
  split.
  { rewrite Forall_fmap, Forall_fmap.
    eapply Forall_impl; [apply scan_upto_codes|].
    intros r [key Hkey]. exists r.2, key.
    split; [reflexivity|]. split; [exact Hkey|exact (classes_values _ _ Hkey)]. }
  split.
  - destruct (Nat.lt_ge_cases k n) as [Hlt|Hge].
    + replace (S k `min` n)%nat with (S (k `min` n)) by lia.
      destruct (scan_upto_succ (k `min` n) lines) as [->|[[fs c] ->]].
      * left. split; apply filled_holds.
      * right. exists fs, c. fold rs.
        pose proof (filled_holds nb (rs ++ [(fs, c)])) as [HX Hy].
        rewrite !fmap_app in HX. rewrite !fmap_app in Hy. split; assumption.
    + replace (S k `min` n)%nat with (k `min` n)%nat by lia.
      left. split; apply filled_holds.
  - rewrite cell_upto_scan, cell_scan. unfold scan.
    replace (length lines `min` (length lines - 1))%nat
      with (length lines - 1)%nat by lia.
    reflexivity.
Qed.

(** ** The combined-torque cell and its pure account *)

Lemma getitem_out {A} (xs : list A) (i : nat) (σ : notebook) :
  (length xs <= i)%nat -> getitem xs (Z.of_nat i) σ = (Raise IndexError, σ).
Proof.
  intros Hle. unfold getitem.
  destruct (Z.ltb_spec (Z.of_nat i) 0) as [?|_]; [lia|].
  destruct (Z.leb_spec 0 (Z.of_nat i)) as [_|?]; [|lia].
  destruct (Z.ltb_spec (Z.of_nat i) (Z.of_nat (length xs))) as [?|_]; [lia|].
  reflexivity.
Qed.

Lemma getitem_lookup {A} (xs : list A) (i : nat) (σ : notebook) :
  getitem xs (Z.of_nat i) σ
  = match xs !! i with
    | Some x => (Ok x, σ)
    | None => (Raise IndexError, σ)
    end.
Proof.
  destruct (xs !! i) as [x|] eqn:Hx.
  - apply getitem_nat, Hx.
  - apply getitem_out, lookup_ge_None, Hx.
Qed.

Lemma append_torqued nb acc x :
  append "X_new" (VInts x) (torqued nb acc) = (Ok tt, torqued nb (acc ++ [x])).
Proof.
  unfold append, bind, name, load, store; simpl.
  rewrite lookup_insert_eq; simpl.
  rewrite heap_at0; simpl. rewrite heap_set0; simpl.
  unfold torqued. rewrite fmap_app. reflexivity.
Qed.

Lemma torque_body_torqued nb acc x :
  torque_body x (torqued nb acc)
  = match add_torque x with
    | Some x' => (Ok tt, torqued nb (acc ++ [x']))
    | None => (Raise IndexError, torqued nb acc)
    end.
Proof.
  unfold torque_body, add_torque.
  unfold bind at 1. rewrite (getitem_lookup x 3).
  destruct (x !! 3%nat) as [x3|]; [|reflexivity].
  unfold bind at 1. rewrite (getitem_lookup x 4).
  destruct (x !! 4%nat) as [x4|]; [|reflexivity].
  unfold bind at 1. rewrite (getitem_lookup x 5).
  destruct (x !! 5%nat) as [x5|]; [|reflexivity].
  apply append_torqued.
Qed.

Lemma torque_loop nb rows : forall acc,
  for_each rows torque_body (torqued nb acc)
  = let '(done, e) := torque_scan rows in
    (outcome e, torqued nb (acc ++ done)).
Proof.
  induction rows as [|x rest IH]; intros acc; cbn [for_each torque_scan].
  - rewrite app_nil_r. reflexivity.
  - unfold bind. rewrite torque_body_torqued.
    destruct (add_torque x) as [x'|].
    + rewrite IH. destruct (torque_scan rest) as [done e].
      rewrite <- app_assoc. reflexivity.
    + rewrite app_nil_r. reflexivity.
Qed.

Lemma first_of_torqued nb rows :
  first_of "X_new" (torqued nb rows)
  = match rows with
    | x :: _ => (Ok (VInts x), torqued nb rows)
    | [] => (Raise IndexError, torqued nb rows)
    end.
Proof.
  unfold first_of, bind, name, load; simpl.
  rewrite lookup_insert_eq; simpl. rewrite heap_at0; simpl.
  destruct rows; reflexivity.
Qed.

Lemma rows_of_rows rows : rows_of (VInts <$> rows) = Some rows.
Proof.
  unfold rows_of. apply mapM_Some. induction rows; constructor; auto.
Qed.

(** What the cell does, by the pure account of its loop. *)
Lemma torque_cell_scan nb rows :
  list_named "X" nb = Some (VInts <$> rows) ->
  torque_cell nb
  = Some (let '(done, e) := torque_scan rows in
          match e, done with
          | Some e, _ => (Raise e, torqued nb done)
          | None, x :: _ => (Ok (VInts x), torqued nb done)
          | None, [] => (Raise IndexError, torqued nb [])
          end).
Proof.
  unfold list_named. intros HX.
  destruct (globals nb !! "X") as [l|] eqn:Hl; [|discriminate].
  destruct (heap nb !! l) as [[items|d]|] eqn:Ho; try discriminate.
  injection HX as ->.
  unfold torque_cell, bind, new, assign, name, load; simpl.
  rewrite lookup_insert_ne by discriminate. rewrite Hl; simpl.
  rewrite (lookup_app_l_Some _ _ _ _ Ho), rows_of_rows; simpl.
  f_equal. unfold torque_rows, bind.
  change {| heap := heap nb ++ [OList []];
            globals := <["X_new" := length (heap nb)]> (globals nb) |}
    with (torqued nb []).
  rewrite torque_loop. destruct (torque_scan rows) as [done [e|]]; simpl.
  - reflexivity.
  - rewrite first_of_torqued. destruct done; reflexivity.
Qed.

Lemma torque_cell_unbound nb :
  globals nb !! "X" = None ->
  torque_cell nb = Some (Raise (NameError "X"), torqued nb []).
Proof.
  intros HX. unfold torque_cell, bind, new, assign, name; simpl.
  rewrite lookup_insert_ne by discriminate. rewrite HX. reflexivity.
Qed.

Lemma add_torque_wide x : wide x = true -> add_torque x = Some (with_torque x).
Proof.
  unfold wide, add_torque, with_torque, torque_of. intros H.
  apply Nat.leb_le in H.
  destruct x as [|a [|b [|c [|x3 [|x4 [|x5 r]]]]]]; simpl in H; try lia.
  reflexivity.
Qed.

Lemma add_torque_short x : wide x = false -> add_torque x = None.
Proof.
  unfold wide, add_torque. intros H. apply Nat.leb_gt in H.
  destruct x as [|a [|b [|c [|x3 [|x4 [|x5 r]]]]]]; simpl in H; try lia;
    reflexivity.
Qed.

Lemma torque_scan_wide rows :
  forallb wide rows = true -> torque_scan rows = (with_torque <$> rows, None).
Proof.
  induction rows as [|x rest IH]; simpl; [reflexivity|].
  intros H. apply andb_prop in H as [Hx Hrest].
  rewrite (add_torque_wide x Hx), (IH Hrest). reflexivity.
Qed.

Lemma torque_scan_short pre short post :
  forallb wide pre = true -> wide short = false ->
  torque_scan (pre ++ short :: post) = (with_torque <$> pre, Some IndexError).
Proof.
  intros Hpre Hshort. induction pre as [|x rest IH]; simpl.
  - rewrite (add_torque_short short Hshort). reflexivity.
  - simpl in Hpre. apply andb_prop in Hpre as [Hx Hrest].
    rewrite (add_torque_wide x Hx), (IH Hrest). reflexivity.
Qed.

Lemma torqued_keeps_list nb acc x items :
  x <> "X_new" -> list_named x nb = Some items ->
  list_named x (torqued nb acc) = Some items.
Proof.
  unfold list_named. intros Hx H; simpl.
  rewrite lookup_insert_ne by congruence.
  destruct (globals nb !! x) as [l|]; [|discriminate].
  destruct (heap nb !! l) as [o|] eqn:Ho; [|discriminate].
  rewrite (lookup_app_l_Some _ _ _ _ Ho). exact H.
Qed.

Lemma torqued_X_new nb acc :
  list_named "X_new" (torqued nb acc) = Some (VInts <$> acc).
Proof.
  unfold list_named; simpl. rewrite lookup_insert_eq, heap_at0. reflexivity.
Qed.

Lemma torqued_heap_old nb acc (a : nat) o :
  heap nb !! a = Some o -> heap (torqued nb acc) !! a = Some o.
Proof. intros H. simpl. apply lookup_app_l_Some. exact H. Qed.

Lemma first_short rows :
  forallb wide rows = false ->
  exists pre short post,
    rows = pre ++ short :: post /\ forallb wide pre = true /\ wide short = false.
Proof.
  induction rows as [|x rest IH]; simpl; [discriminate|].
  destruct (wide x) eqn:Hx; simpl.
  - intros H. destruct (IH H) as (pre & short & post & -> & Hpre & Hshort).
    exists (x :: pre), short, post. simpl. rewrite Hx. auto.
  - intros _. exists [], x, rest. auto.
Qed.

Lemma torqued_holds nb acc rs :
  holds_dataset nb rs -> holds_dataset (torqued nb acc) rs.
Proof.
  intros [HX Hy]. split; apply torqued_keeps_list; try discriminate; assumption.
Qed.

(** ** Properties of the combined-torque cell *)

(** X1. When [X] holds at least one row and every row has its six
    readings (more are allowed), the cell completes: [X_new] has one row
    for each row of [X], in order, which is that row followed by the sum
    of its fields 3, 4 and 5; the row shown is the first; [X] and every
    object that was there before are unchanged. *)
Theorem torque_extends_every_row nb rows :
  list_named "X" nb = Some (VInts <$> rows) ->
  (0 < length rows)%nat ->
  forallb wide rows = true ->
  exists nb' x,
    head rows = Some x /\
    torque_cell nb = Some (Ok (VInts (x ++ [torque_of x])), nb') /\
    list_named "X_new" nb' = Some (VInts <$> (with_torque <$> rows)) /\
    length (with_torque <$> rows) = length rows /\
    list_named "X" nb' = Some (VInts <$> rows) /\
    (forall (a : nat) o, heap nb !! a = Some o -> heap nb' !! a = Some o).
Proof.
  intros HX Hlen Hwide. destruct rows as [|x rest]; [simpl in Hlen; lia|].
  exists (torqued nb (with_torque <$> x :: rest)), x.
  split; [reflexivity|].
  split.
  { rewrite (torque_cell_scan nb _ HX), (torque_scan_wide _ Hwide).
    reflexivity. }
  split; [apply torqued_X_new|].
  split; [apply length_fmap|].
  split; [apply torqued_keeps_list; [discriminate|exact HX]|].
  intros a o. apply torqued_heap_old.
Qed.

Lemma torque_extends_every_row_witness :
  exists nb' x,
    head [[-1; -1; 63; -3; -1; 0]] = Some x /\
    torque_cell (cell file_head fresh).2
    = Some (Ok (VInts (x ++ [torque_of x])), nb') /\
    list_named "X_new" nb'
    = Some (VInts <$> (with_torque <$> [[-1; -1; 63; -3; -1; 0]])) /\
    length (with_torque <$> [[-1; -1; 63; -3; -1; 0]]) = 1%nat /\
    list_named "X" nb' = Some (VInts <$> [[-1; -1; 63; -3; -1; 0]]) /\
    (forall (a : nat) o,
       heap (cell file_head fresh).2 !! a = Some o -> heap nb' !! a = Some o).
Proof.
  apply (torque_extends_every_row (cell file_head fresh).2
           [[-1; -1; 63; -3; -1; 0]]).
  - vm_compute. reflexivity.
  - simpl. lia.
  - vm_compute. reflexivity.
Defined.

(** X2. A row with fewer than six fields stops the cell with
    [IndexError] at the first such row: [X_new] keeps the extended rows
    that come before it and nothing else, and [X] is unchanged. *)
Theorem torque_short_row_raises nb pre short post :
  list_named "X" nb = Some (VInts <$> (pre ++ short :: post)) ->
  forallb wide pre = true ->
  wide short = false ->
  exists nb',
    torque_cell nb = Some (Raise IndexError, nb') /\
    list_named "X_new" nb' = Some (VInts <$> (with_torque <$> pre)) /\
    list_named "X" nb' = Some (VInts <$> (pre ++ short :: post)).
Proof.
  intros HX Hpre Hshort. exists (torqued nb (with_torque <$> pre)).
  split.
  { rewrite (torque_cell_scan nb _ HX), (torque_scan_short _ _ _ Hpre Hshort).
    reflexivity. }
  split; [apply torqued_X_new|].
  apply torqued_keeps_list; [discriminate|exact HX].
Qed.

Lemma torque_short_row_raises_witness :
  exists nb',
    torque_cell (cell short_row fresh).2 = Some (Raise IndexError, nb') /\
    list_named "X_new" nb'
    = Some (VInts <$> (with_torque <$> [[1; 2; 3; 4; 5; 6]])) /\
    list_named "X" nb'
    = Some (VInts <$> ([[1; 2; 3; 4; 5; 6]] ++ [1; 2; 3; 4; 5] :: [])).
Proof.
  apply (torque_short_row_raises (cell short_row fresh).2
           [[1; 2; 3; 4; 5; 6]] [1; 2; 3; 4; 5] []); vm_compute; reflexivity.
Defined.

(** X3. With nothing to iterate over the cell still raises, after it has
    bound [X_new] to a new empty list: [IndexError] from [X_new[0]] when [X]
    is an empty list, [NameError] when [X] is not bound. *)
Theorem torque_nothing_to_iterate nb :
  (list_named "X" nb = Some [] ->
   torque_cell nb = Some (Raise IndexError, torqued nb [])) /\
  (globals nb !! "X" = None ->
   torque_cell nb = Some (Raise (NameError "X"), torqued nb [])) /\
  list_named "X_new" (torqued nb []) = Some [] /\
  (forall (a : nat) o,
     heap nb !! a = Some o -> heap (torqued nb []) !! a = Some o).
Proof.
  split; [|split; [|split]].
  - intros HX. rewrite (torque_cell_scan nb [] HX). reflexivity.
  - apply torque_cell_unbound.
  - apply (torqued_X_new nb []).
  - intros a o. apply torqued_heap_old.
Qed.

Lemma torque_nothing_to_iterate_witness :
  torque_cell (cell ["normal"] fresh).2
  = Some (Raise IndexError, torqued (cell ["normal"] fresh).2 []) /\
  torque_cell fresh = Some (Raise (NameError "X"), torqued fresh []).
Proof.
  split.
  - apply (proj1 (torque_nothing_to_iterate (cell ["normal"] fresh).2)).
    vm_compute. reflexivity.
  - apply (proj1 (proj2 (torque_nothing_to_iterate fresh))).
    vm_compute. reflexivity.
Defined.

(** X4. The parsing cell followed by the combined-torque cell, on
    well-formed lines with at least one label line followed by data: the
    parsing cell completes, and the torque cell completes exactly when
    every Record has six fields or more, with the Dataset kept and every
    row extended; a shorter Record, which the parsing cell accepts, makes
    the torque cell raise [IndexError]. *)
Theorem parse_then_torque lines nb :
  well_formed lines = true ->
  (0 < labelled_pairs lines)%nat ->
  exists nb1 r nb2 x,
    cell lines nb = (Ok tt, nb1) /\
    torque_cell nb1 = Some (r, nb2) /\
    holds_dataset nb2 (spec_dataset lines) /\
    head (spec_dataset lines).*1 = Some x /\
    r = (if forallb wide (spec_dataset lines).*1
         then Ok (VInts (with_torque x)) else Raise IndexError) /\
    (forallb wide (spec_dataset lines).*1 = true ->
     list_named "X_new" nb2
     = Some (VInts <$> (with_torque <$> (spec_dataset lines).*1))).
Proof.
  intros Hwf Hpairs. rewrite <- spec_dataset_length in Hpairs.
  set (rs := spec_dataset lines) in *.
  pose proof (filled_holds nb rs) as Hds.
  assert (list_named "X" (filled nb rs) = Some (VInts <$> rs.*1)) as HX
    by apply Hds.
  exists (filled nb rs).
  destruct (rs.*1) as [|x rest] eqn:Hrows.
  { destruct rs; [simpl in Hpairs; lia|discriminate]. }
  destruct (forallb wide (x :: rest)) eqn:Hwide.
  - exists (Ok (VInts (with_torque x))),
      (torqued (filled nb rs) (with_torque <$> x :: rest)), x.
    split; [apply (cell_result _ _ _ None), well_formed_scan, Hwf|].
    split.
    { rewrite (torque_cell_scan _ _ HX), (torque_scan_wide _ Hwide).
      reflexivity. }
    split; [apply torqued_holds, Hds|].
    split; [reflexivity|]. split; [reflexivity|].
    intros _. apply torqued_X_new.
  - destruct (first_short _ Hwide) as (pre & short & post & Heq & Hpre & Hshort).
    exists (Raise IndexError),
      (torqued (filled nb rs) (with_torque <$> pre)), x.
    split; [apply (cell_result _ _ _ None), well_formed_scan, Hwf|].
    split.
    { rewrite (torque_cell_scan _ _ HX), Heq,
        (torque_scan_short _ _ _ Hpre Hshort). reflexivity. }
    split; [apply torqued_holds, Hds|].
    split; [reflexivity|]. split; [reflexivity|discriminate].
Qed.

Lemma parse_then_torque_witness :
  exists nb1 r nb2 x,
    cell short_row fresh = (Ok tt, nb1) /\
    torque_cell nb1 = Some (r, nb2) /\
    holds_dataset nb2 (spec_dataset short_row) /\
    head (spec_dataset short_row).*1 = Some x /\
    r = (if forallb wide (spec_dataset short_row).*1
         then Ok (VInts (with_torque x)) else Raise IndexError) /\
    (forallb wide (spec_dataset short_row).*1 = true ->
     list_named "X_new" nb2
     = Some (VInts <$> (with_torque <$> (spec_dataset short_row).*1))).
Proof.
  apply (parse_then_torque short_row fresh).
  - vm_compute. reflexivity.
  - vm_compute. lia.
Defined.

(** ** More on the parsing cell: which exception, and when *)

Lemma ints_first_bad ts e :
  ints ts = Raise e ->
  exists (j : nat) tok,
    ts !! j = Some tok /\ PyStr.int_value tok = None /\ e = ValueError tok /\
    forall (j' : nat) t,
      (j' < j)%nat -> ts !! j' = Some t -> is_Some (PyStr.int_value t).
Proof.
  induction ts as [|t ts IH]; simpl; [discriminate|].
  destruct (PyStr.int_value t) as [n|] eqn:Ht.
  - destruct (ints ts) as [ns|e']; [discriminate|]. intros [= <-].
    destruct (IH eq_refl) as (j & tok & Hj & Hbad & He & Hbefore).
    exists (S j), tok. repeat split; try assumption.
    intros [|j'] t' Hlt Ht'.
    + injection Ht' as <-. eauto.
    + apply (Hbefore j' t'); [lia|exact Ht'].
  - intros [= <-]. exists 0%nat, t. repeat split; try assumption.
    intros j' t' Hlt. lia.
Qed.

(** The scan stops at the first label line whose next line is no valid
    data, with the records of the lines before it. *)
Lemma scan_first_bad ls : forall (i : nat) l d e,
  ls !! i = Some l -> ls !! S i = Some d ->
  is_label l = true -> features d = Raise e ->
  well_formed (take (S i) ls) = true ->
  scan ls = (spec_dataset (take (S i) ls), Some e).
Proof.
  induction ls as [|l0|l0 d0 rest IH] using pairs_ind;
    intros i l d e Hl Hd Hlab He Hwf.
  - discriminate.
  - destruct i; discriminate.
  - rewrite scan_cons2. destruct i as [|i].
    + injection Hl as <-. injection Hd as <-.
      apply is_label_code in Hlab as [c ->]. rewrite He. reflexivity.
    + change (take (S (S i)) (l0 :: d0 :: rest))
        with (l0 :: d0 :: take i rest) in *.
      cbn [well_formed] in Hwf. apply andb_prop in Hwf as [H0 Hwf].
      change (d0 :: take i rest) with (take (S i) (d0 :: rest)) in Hwf.
      rewrite (IH i l d e Hl Hd Hlab He Hwf).
      cbn [spec_dataset].
      change (d0 :: take i rest) with (take (S i) (d0 :: rest)).
      unfold is_label in H0. destruct (code l0) as [c0|]; [|reflexivity].
      simpl in H0. apply valid_data_line_spec in H0 as [fs Hfs].
      rewrite Hfs. apply features_Ok in Hfs. rewrite Hfs. reflexivity.
Qed.

Lemma first_bad_pair ls :
  well_formed ls = false ->
  exists (i : nat) l d,
    ls !! i = Some l /\ ls !! S i = Some d /\
    is_label l = true /\ valid_data_line d = false /\
    well_formed (take (S i) ls) = true.
Proof.
  induction ls as [|l0|l0 d0 rest IH] using pairs_ind; try discriminate.
  cbn [well_formed]. intros H.
  destruct (negb (is_label l0) || valid_data_line d0) eqn:H0; simpl in H.
  - destruct (IH H) as (i & l & d & Hl & Hd & Hlab & Hbad & Hwf).
    exists (S i), l, d. repeat split; try assumption.
    change (take (S (S i)) (l0 :: d0 :: rest)) with (l0 :: d0 :: take i rest).
    cbn [well_formed]. rewrite H0.
    change (d0 :: take i rest) with (take (S i) (d0 :: rest)). exact Hwf.
  - apply orb_false_elim in H0 as [Hlab Hbad].
    apply negb_false_iff in Hlab.
    exists 0%nat, l0, d0. repeat split; assumption.
Qed.

(** Two records need four lines: a valid data line is no label line. *)
Lemma scan_half n : forall ls,
  (length ls <= n)%nat -> (2 * length (scan ls).1 <= length ls)%nat.
Proof.
  induction n as [|n IH]; intros [|l [|d rest]] Hn; simpl in Hn;
    try (simpl; lia).
  rewrite scan_cons2.
  assert (2 * length (scan (d :: rest)).1 <= length (d :: rest))%nat as IHd
    by (apply IH; simpl; lia).
  destruct (code l) as [c|]; [|simpl in *; lia].
  destruct (features d) as [fs|e] eqn:Hf; [|simpl; lia].
  assert (is_label d = false) as Hd.
  { destruct (is_label d) eqn:Hd; [|reflexivity].
    destruct (label_not_data d Hd) as [e He]. congruence. }
  rewrite (scan_skip_head d rest Hd).
  assert (2 * length (scan rest).1 <= length rest)%nat as IHr
    by (apply IH; lia).
  destruct (scan rest) as [rs e]. simpl in *. lia.
Qed.

(** X5. The only exception the parsing cell raises is [ValueError]. It
    completes exactly on well-formed input; otherwise it stops at the first
    label line whose next line is no valid data, the literal of the error
    is the first token of that line that [int] rejects, and the Dataset
    holds the Records of the lines before. *)
Theorem cell_raises_only_ValueError lines nb :
  if well_formed lines then (cell lines nb).1 = Ok tt
  else
    exists (i j : nat) l d tok,
      lines !! i = Some l /\ lines !! S i = Some d /\ is_label l = true /\
      tokens d !! j = Some tok /\ PyStr.int_value tok = None /\
      (forall (j' : nat) t,
         (j' < j)%nat -> tokens d !! j' = Some t ->
         is_Some (PyStr.int_value t)) /\
      well_formed (take (S i) lines) = true /\
      (cell lines nb).1 = Raise (ValueError tok) /\
      holds_dataset (cell lines nb).2 (spec_dataset (take (S i) lines)).
Proof.
  destruct (well_formed lines) eqn:Hwf.
  - rewrite cell_fst, (well_formed_scan lines Hwf). reflexivity.
  - destruct (first_bad_pair lines Hwf) as (i & l & d & Hl & Hd & Hlab & Hbad & Hpre).
    apply invalid_data_line in Hbad.
    destruct (features d) as [fs|e] eqn:Hf.
    { apply features_Ok in Hf. congruence. }
    destruct (ints_first_bad _ _ Hf) as (j & tok & Hj & Hnone & -> & Hbefore).
    exists i, j, l, d, tok.
    rewrite cell_fst, cell_snd, (scan_first_bad lines i l d _ Hl Hd Hlab Hf Hpre).
    repeat split; try assumption; apply filled_holds.
Qed.

(** X6. The Dataset never has more Records than half the number of
    lines, whether the cell completes or raises. *)
Theorem records_at_most_half_the_lines lines nb :
  exists rs,
    holds_dataset (cell lines nb).2 rs /\
    (2 * length rs <= length lines)%nat.
Proof.
  exists (scan lines).1. rewrite cell_snd.
  split; [apply filled_holds|]. apply (scan_half (length lines)). lia.
Qed.

(** ** White space around a line *)

Lemma append_cons c r s : String c r +:+ s = String c (r +:+ s).
Proof. reflexivity. Qed.

Lemma append_nil s : EmptyString +:+ s = s.
Proof. reflexivity. Qed.

Lemma all_space_cons c w :
  all_space (String c w) = PyStr.isspace c && all_space w.
Proof. reflexivity. Qed.

Lemma lstrip_space w s :
  all_space w = true -> PyStr.lstrip (w +:+ s) = PyStr.lstrip s.
Proof.
  induction w as [|c w IH]; [reflexivity|].
  rewrite all_space_cons, append_cons. intros H.
  apply andb_prop in H as [Hc Hw]. cbn [PyStr.lstrip]. rewrite Hc. auto.
Qed.

Lemma lstrip_all_space w : all_space w = true -> PyStr.lstrip w = EmptyString.
Proof.
  induction w as [|c w IH]; [reflexivity|].
  rewrite all_space_cons. intros H. apply andb_prop in H as [Hc Hw].
  cbn [PyStr.lstrip]. rewrite Hc. auto.
Qed.

Lemma rstrip_all_space w : all_space w = true -> PyStr.rstrip w = EmptyString.
Proof.
  induction w as [|c w IH]; [reflexivity|].
  rewrite all_space_cons. intros H. apply andb_prop in H as [Hc Hw].
  cbn [PyStr.rstrip]. rewrite (IH Hw), Hc. reflexivity.
Qed.

Lemma rstrip_space s w :
  all_space w = true -> PyStr.rstrip (s +:+ w) = PyStr.rstrip s.
Proof.
  intros Hw. induction s as [|c r IH].
  - rewrite append_nil. apply rstrip_all_space, Hw.
  - rewrite append_cons. cbn [PyStr.rstrip]. rewrite IH. reflexivity.
Qed.

Lemma strip_space_r s w :
  all_space w = true -> PyStr.strip (s +:+ w) = PyStr.strip s.
Proof.
  intros Hw. unfold PyStr.strip. induction s as [|c r IH].
  - rewrite append_nil, (lstrip_all_space w Hw). reflexivity.
  - rewrite append_cons. cbn [PyStr.lstrip].
    destruct (PyStr.isspace c); [exact IH|].
    rewrite <- append_cons. apply rstrip_space, Hw.
Qed.

Lemma strip_pad before l after :
  all_space before = true -> all_space after = true ->
  PyStr.strip (before +:+ l +:+ after) = PyStr.strip l.
Proof.
  intros Hb Ha. unfold PyStr.strip at 1. rewrite (lstrip_space _ _ Hb).
  apply strip_space_r, Ha.
Qed.

Lemma lstrip_head s :
  match PyStr.lstrip s with
  | EmptyString => True
  | String c _ => PyStr.isspace c = false
  end.
Proof.
  induction s as [|c r IH]; simpl; [exact I|].
  destruct (PyStr.isspace c) eqn:Hc; [exact IH|exact Hc].
Qed.

Lemma rstrip_idem s : PyStr.rstrip (PyStr.rstrip s) = PyStr.rstrip s.
Proof.
  induction s as [|c r IH]; [reflexivity|]. cbn [PyStr.rstrip].
  destruct (PyStr.isspace c && PyStr.is_empty (PyStr.rstrip r)) eqn:H;
    [reflexivity|].
  cbn [PyStr.rstrip]. rewrite IH, H. reflexivity.
Qed.

(** [strip] leaves a stripped string as it is. *)
Lemma strip_strip s : PyStr.strip (PyStr.strip s) = PyStr.strip s.
Proof.
  unfold PyStr.strip. pose proof (lstrip_head s) as H.
  destruct (PyStr.lstrip s) as [|c r]; [reflexivity|].
  cbn [PyStr.rstrip]. rewrite H. cbn [andb PyStr.lstrip]. rewrite H.
  cbn [PyStr.rstrip]. rewrite rstrip_idem, H. reflexivity.
Qed.

Lemma strip_all_space d : all_space d = true -> PyStr.strip d = EmptyString.
Proof.
  intros H. unfold PyStr.strip. rewrite (lstrip_all_space d H). reflexivity.
Qed.

Lemma code_strip l : code (PyStr.strip l) = code l.
Proof. unfold code. rewrite strip_strip. reflexivity. Qed.

Lemma features_strip d : features (PyStr.strip d) = features d.
Proof. unfold features, tokens. rewrite strip_strip. reflexivity. Qed.

Lemma scan_strip (ls : list string) : scan (PyStr.strip <$> ls) = scan ls.
Proof.
  induction ls as [|l|l d rest IH] using pairs_ind; try reflexivity.
  change (PyStr.strip <$> l :: d :: rest)
    with (PyStr.strip l :: PyStr.strip d :: (PyStr.strip <$> rest)).
  rewrite !scan_cons2, code_strip, features_strip.
  change (PyStr.strip d :: (PyStr.strip <$> rest))
    with (PyStr.strip <$> d :: rest).
  rewrite IH. reflexivity.
Qed.

Lemma cell_strip (ls : list string) nb : cell (PyStr.strip <$> ls) nb = cell ls nb.
Proof. rewrite !cell_scan, scan_strip. reflexivity. Qed.

Lemma fmap_strip_pad (ls : list string) before after :
  all_space before = true -> all_space after = true ->
  PyStr.strip <$> ((fun l => before +:+ l +:+ after) <$> ls) = PyStr.strip <$> ls.
Proof.
  intros Hb Ha. rewrite <- list_fmap_compose. apply list_fmap_ext.
  intros i l _. apply strip_pad; assumption.
Qed.

(** X7. Every line is read through [strip()]: two inputs whose lines are
    the same once surrounding white space is removed give the same run,
    exception and Dataset alike.  White space before and after a line is
    removed whatever its length, so the run is the same with or without the
    line ends that [readlines()] keeps, be they "\n" or "\r\n". *)
Theorem surrounding_space_ignored (ls ls' : list string) nb :
  PyStr.strip <$> ls = PyStr.strip <$> ls' ->
  cell ls nb = cell ls' nb /\
  (forall before after l,
     all_space before = true -> all_space after = true ->
     PyStr.strip (before +:+ l +:+ after) = PyStr.strip l) /\
  cell ((fun l => l +:+ newline) <$> ls) nb = cell ls nb /\
  cell ((fun l => l +:+ crlf) <$> ls) nb = cell ls nb.
Proof.
  intros H. split.
  { rewrite <- (cell_strip ls), <- (cell_strip ls'), H. reflexivity. }
  split; [intros before after l; apply strip_pad|].
  split.
  - rewrite <- cell_strip, <- (cell_strip ls). f_equal.
    apply (fmap_strip_pad ls EmptyString newline); reflexivity.
  - rewrite <- cell_strip, <- (cell_strip ls). f_equal.
    apply (fmap_strip_pad ls EmptyString crlf); reflexivity.
Qed.

Lemma surrounding_space_ignored_witness :
  cell file_head fresh = cell file_head_bare fresh.
Proof.
  apply (surrounding_space_ignored file_head file_head_bare fresh).
  vm_compute. reflexivity.
Defined.

(** X8. An empty or white-space-only line right after a label line, when
    the lines before it are well formed, makes the cell raise [ValueError]
    with the empty literal ([''.split('\t')] is [['']] and [int('')]
    fails); the Dataset holds the Records of the lines before. *)
Theorem blank_line_after_label_raises lines nb (i : nat) l d :
  lines !! i = Some l -> lines !! S i = Some d ->
  is_label l = true -> all_space d = true ->
  well_formed (take (S i) lines) = true ->
  (cell lines nb).1 = Raise (ValueError EmptyString) /\
  holds_dataset (cell lines nb).2 (spec_dataset (take (S i) lines)).
Proof.
  intros Hl Hd Hlab Hblank Hwf.
  assert (features d = Raise (ValueError EmptyString)) as Hf.
  { unfold features, tokens. rewrite (strip_all_space d Hblank). reflexivity. }
  rewrite cell_fst, cell_snd, (scan_first_bad lines i l d _ Hl Hd Hlab Hf Hwf).
  split; [reflexivity|apply filled_holds].
Qed.

Lemma blank_line_after_label_raises_witness :
  (cell blank_after_label fresh).1 = Raise (ValueError EmptyString) /\
  holds_dataset (cell blank_after_label fresh).2
    (spec_dataset (take 3 blank_after_label)).
Proof.
  apply (blank_line_after_label_raises blank_after_label fresh 2%nat
           "collision" (" " +:+ newline)); vm_compute; reflexivity.
Defined.

(** X9. The encoding of the classes can be undone: two label lines have
    the same code only when they name the same class, so each entry of [y]
    stands for one class; and the codes are 0, 1, 2 and 3. *)
Theorem same_code_same_label l l' c :
  code l = Some c -> code l' = Some c ->
  PyStr.strip l = PyStr.strip l' /\ c ∈ [0; 1; 2; 3].
Proof.
  unfold code. intros H H'. split; [|exact (classes_values _ _ H)].
  apply classes_entries in H as [[-> ->]|[[-> ->]|[[-> ->]|[-> ->]]]];
    apply classes_entries in H' as [[-> H']|[[-> H']|[[-> H']|[-> H']]]];
    solve [reflexivity | discriminate].
Qed.

Lemma same_code_same_label_witness :
  PyStr.strip ("normal" +:+ newline) = PyStr.strip "  normal" /\
  0 ∈ [0; 1; 2; 3].
Proof.
  apply (same_code_same_label ("normal" +:+ newline) "  normal" 0);
    vm_compute; reflexivity.
Defined.

(** ** Tokens: [split] and [int] *)

Lemma split_join sep s : join sep (PyStr.split sep s) = s.
Proof.
  induction s as [|c r IH]; [reflexivity|]. cbn [PyStr.split].
  pose proof (split_nonempty sep r) as Hne.
  destruct (Ascii.eqb_spec c sep) as [->|_].
  - cbn [join]. destruct (PyStr.split sep r) as [|t ts]; [simpl in Hne; lia|].
    rewrite IH. reflexivity.
  - destruct (PyStr.split sep r) as [|t ts]; [simpl in Hne; lia|].
    cbn [join] in *. destruct ts as [|t' ts]; [congruence|].
    rewrite append_cons, IH. reflexivity.
Qed.

Lemma free_of_cons sep c t :
  free_of sep (String c t) = negb (Ascii.eqb sep c) && free_of sep t.
Proof. unfold free_of. cbn [PyStr.chars existsb]. apply negb_orb. Qed.

Lemma split_free sep s : forallb (free_of sep) (PyStr.split sep s) = true.
Proof.
  induction s as [|c r IH]; [reflexivity|]. cbn [PyStr.split].
  destruct (Ascii.eqb c sep) eqn:Hc; [exact IH|].
  destruct (PyStr.split sep r) as [|t ts]; cbn [forallb] in *.
  - rewrite free_of_cons, Ascii.eqb_sym, Hc. reflexivity.
  - rewrite free_of_cons, Ascii.eqb_sym, Hc. exact IH.
Qed.

Lemma split_length sep s :
  length (PyStr.split sep s) = S (occurrences sep s).
Proof.
  unfold occurrences. induction s as [|c r IH]; [reflexivity|].
  cbn [PyStr.split PyStr.chars List.filter]. rewrite (Ascii.eqb_sym sep c).
  pose proof (split_nonempty sep r) as Hne.
  destruct (Ascii.eqb c sep); cbn [length]; [lia|].
  destruct (PyStr.split sep r); simpl in *; lia.
Qed.

Lemma split_token sep t :
  free_of sep t = true -> PyStr.split sep t = [t].
Proof.
  induction t as [|c r IH]; [reflexivity|].
  rewrite free_of_cons. intros H. apply andb_prop in H as [Hc Hr].
  cbn [PyStr.split]. rewrite Ascii.eqb_sym.
  destruct (Ascii.eqb sep c); [discriminate|]. rewrite (IH Hr). reflexivity.
Qed.

Lemma split_token_sep sep t s :
  free_of sep t = true ->
  PyStr.split sep (t +:+ String sep s) = t :: PyStr.split sep s.
Proof.
  induction t as [|c r IH].
  - intros _. rewrite append_nil. cbn [PyStr.split].
    rewrite Ascii.eqb_refl. reflexivity.
  - rewrite free_of_cons, append_cons. intros H.
    apply andb_prop in H as [Hc Hr]. cbn [PyStr.split].
    rewrite Ascii.eqb_sym.
    destruct (Ascii.eqb sep c); [discriminate|]. rewrite (IH Hr). reflexivity.
Qed.

(** X10. [split] loses nothing and is undone by [join]: the tokens of a
    string, joined by the separator, are the string; no token holds the
    separator; there is one token more than separators, so at least one;
    and fields without the separator, joined by it and split again, are
    the fields. *)
Theorem split_and_join sep s ts :
  (0 < length ts)%nat ->
  forallb (free_of sep) ts = true ->
  join sep (PyStr.split sep s) = s /\
  forallb (free_of sep) (PyStr.split sep s) = true /\
  length (PyStr.split sep s) = S (occurrences sep s) /\
  PyStr.split sep (join sep ts) = ts.
Proof.
  intros Hlen Hfree.
  split; [apply split_join|]. split; [apply split_free|].
  split; [apply split_length|].
  induction ts as [|t ts IH]; [simpl in Hlen; lia|].
  cbn [forallb] in Hfree. apply andb_prop in Hfree as [Ht Hts].
  cbn [join]. destruct ts as [|t' ts]; [apply split_token, Ht|].
  rewrite (split_token_sep sep t _ Ht). f_equal.
  apply IH; [simpl; lia|exact Hts].
Qed.

Lemma split_and_join_witness :
  join tab (PyStr.split tab (tsv ["1"; "2"])) = tsv ["1"; "2"] /\
  PyStr.split tab (join tab ["-1"; "63"; EmptyString; "0"])
  = ["-1"; "63"; EmptyString; "0"].
Proof.
  destruct (split_and_join tab (tsv ["1"; "2"])
              ["-1"; "63"; EmptyString; "0"]) as (H1 & _ & _ & H4).
  - simpl. lia.
  - vm_compute. reflexivity.
  - split; [exact H1|exact H4].
Defined.

Lemma int_space_not_digit c :
  PyStr.int_isspace c = true -> PyStr.digit_value c = None.
Proof.
  intros H. destruct (PyStr.digit_value c) as [d|] eqn:Hd; [|reflexivity].
  rewrite (digit_not_space c d Hd) in H. discriminate.
Qed.

Lemma int_space_not_underscore c :
  PyStr.int_isspace c = true -> Ascii.eqb c "_" = false.
Proof.
  intros H. destruct (Ascii.eqb_spec c "_") as [->|_]; [discriminate|reflexivity].
Qed.

Lemma all_int_space_cons c w :
  all_int_space (String c w) = PyStr.int_isspace c && all_int_space w.
Proof. reflexivity. Qed.

Lemma int_digits_space w : forall st acc,
  all_int_space w = true ->
  PyStr.int_digits st acc w = PyStr.int_digits st acc EmptyString.
Proof.
  induction w as [|c w IH]; intros st acc; [reflexivity|].
  rewrite all_int_space_cons. intros H. apply andb_prop in H as [Hc Hw].
  cbn [PyStr.int_digits].
  rewrite (int_space_not_digit c Hc), (int_space_not_underscore c Hc), Hc.
  destruct st; try reflexivity; rewrite (IH _ _ Hw); reflexivity.
Qed.

Lemma int_digits_space_r r w : forall st acc,
  all_int_space w = true ->
  PyStr.int_digits st acc (r +:+ w) = PyStr.int_digits st acc r.
Proof.
  induction r as [|c r IH]; intros st acc Hw.
  - rewrite append_nil. apply int_digits_space, Hw.
  - rewrite append_cons. cbn [PyStr.int_digits].
    destruct st, (PyStr.digit_value c), (Ascii.eqb c "_"),
      (PyStr.int_isspace c); auto.
Qed.

Lemma int_lstrip_space w s :
  all_int_space w = true -> PyStr.int_lstrip (w +:+ s) = PyStr.int_lstrip s.
Proof.
  induction w as [|c w IH]; [reflexivity|].
  rewrite all_int_space_cons, append_cons. intros H.
  apply andb_prop in H as [Hc Hw]. cbn [PyStr.int_lstrip]. rewrite Hc. auto.
Qed.

Lemma int_lstrip_all_space w :
  all_int_space w = true -> PyStr.int_lstrip w = EmptyString.
Proof.
  induction w as [|c w IH]; [reflexivity|].
  rewrite all_int_space_cons. intros H. apply andb_prop in H as [Hc Hw].
  cbn [PyStr.int_lstrip]. rewrite Hc. auto.
Qed.

Lemma int_value_space_r s w :
  all_int_space w = true -> PyStr.int_value (s +:+ w) = PyStr.int_value s.
Proof.
  intros Hw. unfold PyStr.int_value. induction s as [|c r IH].
  - rewrite append_nil, (int_lstrip_all_space w Hw). reflexivity.
  - rewrite append_cons. cbn [PyStr.int_lstrip].
    destruct (PyStr.int_isspace c); [exact IH|].
    rewrite <- append_cons, !int_digits_space_r by exact Hw. reflexivity.
Qed.

(** X11. [int] skips white space before and after a token: a field
    padded with blanks has the value of the bare field, and is rejected
    when the bare field is. *)
Theorem int_ignores_padding before tok after :
  all_int_space before = true -> all_int_space after = true ->
  PyStr.int_value (before +:+ tok +:+ after) = PyStr.int_value tok.
Proof.
  intros Hb Ha. unfold PyStr.int_value at 1.
  rewrite (int_lstrip_space _ _ Hb).
  exact (int_value_space_r tok after Ha).
Qed.

Lemma int_ignores_padding_witness :
  PyStr.int_value ("  " +:+ "-42" +:+ " ") = PyStr.int_value "-42".
Proof.
  apply (int_ignores_padding "  " "-42" " "); vm_compute; reflexivity.
Defined.

(** ** Blocks: only the first line of readings is used *)

Lemma valid_data_not_label d : valid_data_line d = true -> is_label d = false.
Proof.
  intros Hv. destruct (is_label d) eqn:Hd; [|reflexivity].
  destruct (label_not_data d Hd) as [e He].
  apply valid_data_line_spec in Hv as [fs Hfs].
  apply features_Ok in Hfs. congruence.
Qed.

Lemma scan_skip_prefix more rest :
  forallb (fun m => negb (is_label m)) more = true ->
  scan (more ++ rest) = scan rest.
Proof.
  induction more as [|m more IH]; [reflexivity|].
  cbn [forallb]. intros H. apply andb_prop in H as [Hm Hmore].
  apply negb_true_iff in Hm.
  change ((m :: more) ++ rest) with (m :: (more ++ rest)).
  rewrite (scan_skip_head m _ Hm). exact (IH Hmore).
Qed.

Lemma scan_blocks bs :
  forallb block_ok bs = true ->
  exists rs, scan (blocks_lines bs) = (rs, None) /\ Forall2 block_record bs rs.
Proof.
  induction bs as [|[[l d] more] bs IH].
  - intros _. exists []. split; [reflexivity|constructor].
  - cbn [forallb block_ok]. intros H.
    apply andb_prop in H as [Hb Hbs].
    apply andb_prop in Hb as [Hb Hmore]. apply andb_prop in Hb as [Hl Hd].
    destruct (IH Hbs) as (rs & Hrs & Hrec).
    apply is_label_code in Hl as [c Hc].
    pose proof (valid_data_not_label d Hd) as Hnot.
    apply valid_data_line_spec in Hd as [fs Hfs].
    exists ((fs, c) :: rs). split.
    + change (blocks_lines ((l, d, more) :: bs))
        with (l :: d :: (more ++ blocks_lines bs)).
      rewrite scan_cons2, Hc, (proj2 (features_Ok d fs) Hfs).
      rewrite (scan_skip_head d _ Hnot), (scan_skip_prefix _ _ Hmore), Hrs.
      reflexivity.
    + constructor; [split; assumption|exact Hrec].
Qed.

(** X12. On a file made of blocks, each a label line, a valid line of
    readings and any number of further lines that are no label lines
    (more readings, blank lines, anything), the cell completes and the
    Dataset has exactly one Record for each block, in order: the fields of
    the block's first line of readings with the code of its label.  The
    other lines of a block are not read as data. *)
Theorem one_record_for_each_block bs nb :
  forallb block_ok bs = true ->
  exists rs nb',
    cell (blocks_lines bs) nb = (Ok tt, nb') /\
    holds_dataset nb' rs /\
    Forall2 block_record bs rs /\
    length rs = length bs.
Proof.
  intros H. destruct (scan_blocks bs H) as (rs & Hrs & Hrec).
  exists rs, (filled nb rs).
  split; [exact (cell_result _ nb _ _ Hrs)|].
  split; [apply filled_holds|].
  split; [exact Hrec|]. symmetry. exact (Forall2_length _ _ _ Hrec).
Qed.

Lemma one_record_for_each_block_witness :
  exists rs nb',
    cell (blocks_lines two_blocks) fresh = (Ok tt, nb') /\
    holds_dataset nb' rs /\
    Forall2 block_record two_blocks rs /\
    length rs = 2%nat.
Proof.
  apply (one_record_for_each_block two_blocks fresh). vm_compute. reflexivity.
Defined.

(** ** Records of label lines: what is emitted, and in which values *)
















